(** * The pull-request Reviews panel (lib/views/reviews-view.js)

    A shallow embedding of the decision logic of [ReviewsView]: the comment
    position translator, the review-summary and comment-thread rendering,
    reply submission and the refresh guard, followed by the properties the
    specification states about them.

    JavaScript values are kept as the code has them: [null] and [undefined]
    are distinct, a lookup in a [Map] answers [undefined] for an absent key,
    and reading a property of [undefined] raises a [TypeError]. *)

From Stdlib Require Import Ascii String ZArith.
From stdpp Require Import gmap strings list pretty.

Local Open Scope Z_scope.

#[local] Set Warnings "-clear-no-such-hyp".

(** ** JavaScript values, completions and the built-ins the view calls *)

Module JS.

(** The values that flow through the translator.  Numbers are the integral
    ones (a diff position and a line number are GraphQL [Int]s); [NaN] is
    what [parseInt] answers when it finds no digit. *)
Inductive value : Type :=
| Undefined
| Null
| Num (n : Z)
| NaN
| Str (s : string).

Inductive error : Type :=
| TypeError.

(** A completion record: the call returns a value or throws. *)
Inductive completion (A : Type) : Type :=
| Normal (a : A)
| Throw (e : error).
Arguments Normal {A} a.
Arguments Throw {A} e.

Definition bind {A B} (f : A -> completion B) (c : completion A) : completion B :=
  match c with
  | Normal a => f a
  | Throw e => Throw e
  end.

Definition returns {A} (c : completion A) : Prop := exists a, c = Normal a.

(** [o.prop] where [o] came out of a lookup: absent means [undefined], and
    property access on [undefined] throws. *)
Definition member {A} (o : option A) : completion A :=
  match o with
  | Some a => Normal a
  | None => Throw TypeError
  end.

(** [Number.prototype.toString] on an integral number below 10^21 in
    magnitude: the decimal digits, with a leading minus sign. *)
Definition Number_toString (n : Z) : string := pretty n.

(** [parseInt(s, 10)]: skip leading white space, read an optional sign,
    then the longest prefix of decimal digits; [NaN] when it is empty. *)
Definition is_whitespace (c : ascii) : bool :=
  match N_of_ascii c with
  | 9%N | 10%N | 11%N | 12%N | 13%N | 32%N => true
  | _ => false
  end.

Fixpoint trim_start (s : string) : string :=
  match s with
  | String c s' => if is_whitespace c then trim_start s' else s
  | EmptyString => EmptyString
  end.

Definition digit_value (c : ascii) : option N :=
  let n := N_of_ascii c in
  if ((48 <=? n) && (n <=? 57))%N then Some (n - 48)%N else None.

Fixpoint parse_digits (acc : N) (s : string) : N :=
  match s with
  | String c s' =>
      match digit_value c with
      | Some d => parse_digits (acc * 10 + d)%N s'
      | None => acc
      end
  | EmptyString => acc
  end.

Definition starts_with_digit (s : string) : bool :=
  match s with
  | String c _ => bool_decide (is_Some (digit_value c))
  | EmptyString => false
  end.

Definition strip_sign (s : string) : Z * string :=
  match s with
  | String "-"%char s' => (-1, s')
  | String "+"%char s' => (1, s')
  | _ => (1, s)
  end.

Definition parseInt (s : string) : value :=
  let '(sign, digits) := strip_sign (trim_start s) in
  if starts_with_digit digits
  then Num (sign * Z.of_N (parse_digits 0 digits))
  else NaN.

(** [map.get(key)] on a [Map] whose keys are numbers: only a number can be
    found, anything else ([undefined], [NaN], ...) is absent. *)
Definition Map_get {V} (m : gmap Z V) (key : value) : option V :=
  match key with
  | Num n => m !! n
  | _ => None
  end.

(** The value of an expression that is a number when present and
    [undefined] otherwise. *)
Definition of_lookup (o : option Z) : value :=
  match o with
  | Some n => Num n
  | None => Undefined
  end.

(** [ToBoolean]: what [!v] and [v && ...] test. *)
Definition truthy (v : value) : bool :=
  match v with
  | Undefined | Null | NaN => false
  | Num n => negb (n =? 0)
  | Str s => negb (String.eqb s "")
  end.

(** How React renders a value placed as the child of an element: a number
    as its decimal text, a string as itself, [null] and [undefined] as
    nothing. *)
Definition React_text (v : value) : string :=
  match v with
  | Num n => Number_toString n
  | Str s => s
  | NaN => "NaN"
  | Null | Undefined => ""
  end.

End JS.

Import JS.

Global Instance completion_ret : MRet completion := @Normal.
Global Instance completion_bind : MBind completion := @JS.bind.

(** ** The data the view receives *)

(** Modelled from the spec: [checkoutStates] of
    lib/controllers/pr-checkout-controller.js and the [EnableableOperation]
    model are not among the sources.  The view only asks an operation
    whether it is enabled and why it is disabled; the reason [CURRENT] means
    that the pull request's revision is the one checked out. *)
Inductive CheckoutState : Type := HIDDEN | DISABLED | BUSY | CURRENT.

Global Instance CheckoutState_eq_dec : EqDecision CheckoutState.
Proof. solve_decision. Defined.

Inductive EnableableOperation : Type :=
| Enabled
| Disabled (reason : CheckoutState).

Definition isEnabled (op : EnableableOperation) : bool :=
  match op with
  | Enabled => true
  | Disabled _ => false
  end.

Definition why (op : EnableableOperation) : option CheckoutState :=
  match op with
  | Enabled => None
  | Disabled reason => Some reason
  end.

(** One entry of [commentTranslations], as the structure comment of the
    prop types gives it. *)
Record FileTranslation : Type := {
  newPosition : Z;
}.

Record TranslationsForFile : Type := {
  rawPositions : gset Z;
  diffToFilePosition : gmap Z Z;
  fileTranslations : option (gmap Z FileTranslation);   (* null, or a Map *)
  digest : string;
}.

Record Author : Type := {
  login : string;
  avatarUrl : string;
}.

(** The state of a review comment and of a review, the enumerations of the
    GraphQL schema; the code compares their names. *)
Inductive CommentState : Type := CommentPENDING | CommentSUBMITTED.

Global Instance CommentState_eq_dec : EqDecision CommentState.
Proof. solve_decision. Defined.

Definition CommentState_name (s : CommentState) : string :=
  match s with
  | CommentPENDING => "PENDING"
  | CommentSUBMITTED => "SUBMITTED"
  end.

Record Comment : Type := {
  comment_id : string;
  comment_author : option Author;      (* null for a deleted account *)
  comment_bodyHTML : string;
  comment_path : string;
  comment_position : option Z;         (* null outside of the diff *)
  comment_isMinimized : bool;
  comment_state : CommentState;
  comment_createdAt : string;
  comment_url : string;
}.

(** The state of a review, again by the schema's enumeration. *)
Inductive ReviewState : Type :=
| PENDING | COMMENTED | APPROVED | CHANGES_REQUESTED | DISMISSED.

Global Instance ReviewState_eq_dec : EqDecision ReviewState.
Proof. solve_decision. Defined.

Definition ReviewState_name (s : ReviewState) : string :=
  match s with
  | PENDING => "PENDING"
  | COMMENTED => "COMMENTED"
  | APPROVED => "APPROVED"
  | CHANGES_REQUESTED => "CHANGES_REQUESTED"
  | DISMISSED => "DISMISSED"
  end.

Record Review : Type := {
  review_id : string;
  review_author : option Author;
  review_state : ReviewState;
  review_bodyHTML : string;
  review_submittedAt : string;
}.

Record Thread : Type := {
  thread_id : string;
  thread_isResolved : bool;
  thread_resolvedBy : option Author;
}.

(** One element of the [commentThreads] prop: [{thread, comments}]. *)
Record CommentThread : Type := {
  thread : Thread;
  comments : list Comment;
}.

Record Props : Type := {
  summaries : list Review;
  commentThreads : list CommentThread;
  commentTranslations : option (gmap string TranslationsForFile);  (* null until loaded *)
  contextLines : Z;
  checkoutOp : EnableableOperation;
  summarySectionOpen : bool;
  commentSectionOpen : bool;
  threadIDsOpen : gset string;
  postingToThreadID : value;            (* null, or the id of a thread *)
  scrollToThreadID : value;
  number : Z;
  repo : string;
  owner : string;
}.

(** ** Collaborators of the view *)

(** The mini editor behind a reply box; only its text matters here. *)
Record Editor : Type := {
  getText : string;
}.

Definition setText (text : string) (_ : Editor) : Editor :=
  {| getText := text |}.

(** Modelled from the spec: lib/models/ref-holder.js is not among the
    sources.  A [RefHolder] is the mutable handle that holds the draft
    editor of a thread once it is mounted: it is empty or holds a value,
    [map] applies a function to the value when there is one, and [getOr]
    reads the value or answers a default. *)
Module RefHolder.
Definition t (A : Type) : Type := option A.
Definition new {A} : t A := None.
Definition map {A B} (present : A -> B) (h : t A) : t B :=
  match h with
  | Some a => Some (present a)
  | None => None
  end.
Definition getOr {A} (h : t A) (def : A) : A :=
  match h with
  | Some a => a
  | None => def
  end.
End RefHolder.

(** event-kit's [CompositeDisposable]: a set of disposables that are
    disposed together; once disposed it ignores [add] and [remove]. *)
Module CompositeDisposable.
Record t : Type := {
  disposed : bool;
  disposables : gset nat;
}.
Definition new : t := {| disposed := false; disposables := ∅ |}.
Definition add (d : nat) (c : t) : t :=
  if disposed c then c
  else {| disposed := false; disposables := {[d]} ∪ disposables c |}.
Definition remove (d : nat) (c : t) : t :=
  if disposed c then c
  else {| disposed := false; disposables := disposables c ∖ {[d]} |}.
(** The composite after [dispose()], and the members whose [dispose] it
    called. *)
Definition dispose (c : t) : t * gset nat :=
  if disposed c then (c, ∅)
  else ({| disposed := true; disposables := ∅ |}, disposables c).
End CompositeDisposable.

(** ** What the view renders *)

Record TranslatedPosition : Type := {
  lineNumber : value;
  positionText : value;
}.

Record ReviewType : Type := {
  icon : string;
  copy : string;
}.

Record ReviewSummaryElement : Type := {
  rs_key : string;
  rs_iconClass : string;
  rs_avatarSrc : string;
  rs_avatarAlt : string;
  rs_usernameHref : string;
  rs_username : string;
  rs_type : string;
  rs_time : string;
  rs_html : string;
  rs_reactable : Review;
}.

Inductive SummariesElement : Type :=
| EmptyState (pullRequestURL : string)
| SummariesSection (open : bool) (children : list (option ReviewSummaryElement)).

Record VisibleComment : Type := {
  vc_key : string;
  vc_pendingClass : bool;               (* github-Review-comment--pending *)
  vc_avatarSrc : string;
  vc_avatarAlt : string;
  vc_usernameHref : string;
  vc_username : string;
  vc_timeHref : string;
  vc_time : string;
  vc_pendingBadge : bool;               (* github-Review-pendingBadge *)
  vc_html : string;
  vc_reactable : Comment;
}.

Inductive CommentElement : Type :=
| HiddenCommentElement (key : string)   (* github-Review-comment--hidden *)
| VisibleCommentElement (c : VisibleComment).

(** The handler of a Comment button,
    [() => this.submitReply(replyHolder, thread, lastComment)].  A reply
    holder is referred to by the key under which [this.replyHolders] keeps
    it. *)
Record ReplyClick : Type := {
  click_replyHolder : string;
  click_thread : Thread;
  click_lastComment : option Comment;   (* undefined for no comment *)
}.

Inductive ResolveButton : Type :=
| UnresolveConversation (t : Thread)    (* onClick: unresolveThread(thread) *)
| ResolveConversation (t : Thread).     (* onClick: resolveThread(thread) *)

Record ThreadBody : Type := {
  tb_comments : list CommentElement;
  tb_replyDisabledClass : bool;         (* github-Review-reply--disabled *)
  tb_replyThreadId : string;            (* data-thread-id *)
  tb_editorReadOnly : bool;
  tb_editorRefModel : string;
  tb_resolvedText : option string;
  tb_replyButtonDisabled : bool;
  tb_replyButtonOnClick : ReplyClick;
  tb_resolveButton : ResolveButton;
}.

Record ThreadElement : Type := {
  te_id : string;
  te_resolvedClass : bool;
  te_highlightClass : bool;
  te_open : bool;
  te_lineNr : value;                    (* child of github-Review-lineNr *)
  te_avatarSrc : string;
  te_avatarAlt : string;
  te_time : string;
  te_outdatedClass : bool;
  te_jumpToFileLine : value;            (* data-line of Jump To File *)
  te_jumpToFileDisabled : bool;
  te_openDiffLine : option Z;           (* data-line of Open Diff *)
  te_tooltip : bool;
  te_patchPreview : option (Z * Z);     (* diffRow, maxRowCount *)
  te_thread : ThreadBody;
}.

Record CommentsSection : Type := {
  cs_open : bool;
  cs_countText : string;                (* text of github-Reviews-count *)
  cs_progressValue : Z;
  cs_progressMax : Z;
  cs_children : list (option ThreadElement);
}.

(** React leaves out the [null] entries of an array of children. *)
Definition React_children {A} (children : list (option A)) : list A :=
  omap id children.

(** The callbacks handed to [addSingleComment], closures over the reply
    holder and, for the failure one, the body read at submission. *)
Inductive Callback : Type :=
| DidSubmitComment (replyHolder : string)
| DidFailComment (replyHolder : string) (body : string).

(** A call of the external [addSingleComment] action, with its arguments in
    order. *)
Record AddSingleComment : Type := {
  arg_body : string;
  arg_threadID : string;
  arg_replyToID : string;
  arg_path : string;
  arg_position : option Z;
  arg_didSubmitComment : Callback;
  arg_didFailComment : Callback;
}.

Abbreviation ReplyHolders := (gmap string (RefHolder.t Editor)).

(** ** The view's methods *)

Section ReviewsView.

Variable props : Props.

(** *** getTranslatedPosition *)

Definition isCheckedOutPullRequest : bool :=
  bool_decide (why (checkoutOp props) = Some CURRENT).

(** [translationsForFile.fileTranslations.get(lineNumber).newPosition] *)
Definition secondStage (ft : gmap Z FileTranslation) (lineNumber : value)
  : completion value :=
  entry ← member (Map_get ft lineNumber);
  Normal (Num (newPosition entry)).

Definition getTranslatedPosition (rootComment : Comment)
  : completion TranslatedPosition :=
  match commentTranslations props with
  | None => Normal {| lineNumber := Null; positionText := Str "" |}
  | Some translations =>
      match comment_position rootComment with
      | None => Normal {| lineNumber := Null; positionText := Str "outdated" |}
      | Some position =>
          translationsForFile ← member (translations !! comment_path rootComment);
          let lineNumber :=
            of_lookup (Map_get (diffToFilePosition translationsForFile)
                               (parseInt (Number_toString position))) in
          lineNumber ←
            match fileTranslations translationsForFile with
            | Some ft =>
                if isCheckedOutPullRequest
                then secondStage ft lineNumber
                else Normal lineNumber
            | None => Normal lineNumber
            end;
          Normal {| lineNumber := lineNumber; positionText := lineNumber |}
      end
  end.

(** *** renderReviewSummaries *)

(** The object literal of [reviewTypes], and the lookup with its
    fallback.  No state name is a property that objects inherit. *)
Definition reviewTypes_table : list (string * ReviewType) :=
  [ ("APPROVED", {| icon := "icon-check"; copy := "approved these changes" |});
    ("COMMENTED", {| icon := "icon-comment"; copy := "commented" |});
    ("CHANGES_REQUESTED", {| icon := "icon-alert"; copy := "requested changes" |}) ].

Definition reviewTypes (type : string) : ReviewType :=
  match list_find (fun entry => entry.1 = type) reviewTypes_table with
  | Some (_, (_, found)) => found
  | None => {| icon := ""; copy := "" |}
  end.

Definition renderReviewSummary (review : Review) : option ReviewSummaryElement :=
  let state := ReviewState_name (review_state review) in
  let type := reviewTypes state in
  if String.eqb state "PENDING"
     || (String.eqb state "COMMENTED" && String.eqb (review_bodyHTML review) "")
  then None
  else
    let reviewAuthor :=
      match review_author review with Some a => login a | None => "" end in
    Some {|
      rs_key := review_id review;
      rs_iconClass := "github-ReviewSummary-icon icon " +:+ icon type;
      rs_avatarSrc :=
        match review_author review with Some a => avatarUrl a | None => "" end;
      rs_avatarAlt := reviewAuthor;
      rs_usernameHref := "https://github.com/" +:+ reviewAuthor;
      rs_username := reviewAuthor;
      rs_type := copy type;
      rs_time := review_submittedAt review;
      rs_html := review_bodyHTML review;
      rs_reactable := review;
    |}.

Definition renderEmptyState : SummariesElement :=
  EmptyState ("https://www.github.com/" +:+ owner props +:+ "/" +:+ repo props
              +:+ "/pull/" +:+ Number_toString (number props) +:+ "/files/").

Definition renderReviewSummaries : SummariesElement :=
  if (length (summaries props) =? 0)%nat
  then renderEmptyState
  else SummariesSection (summarySectionOpen props)
                        (renderReviewSummary <$> summaries props).

(** The summaries on screen: the children React keeps. *)
Definition renderedSummaries : list ReviewSummaryElement :=
  match renderReviewSummaries with
  | EmptyState _ => []
  | SummariesSection _ children => React_children children
  end.

(** *** renderComment, renderThread *)

Definition renderComment (comment : Comment) : completion CommentElement :=
  if comment_isMinimized comment
  then Normal (HiddenCommentElement (comment_id comment))
  else
    let pending := String.eqb (CommentState_name (comment_state comment)) "PENDING" in
    (* alt={comment.author.login} *)
    author ← member (comment_author comment);
    Normal (VisibleCommentElement {|
      vc_key := comment_id comment;
      vc_pendingClass := pending;
      vc_avatarSrc :=
        match comment_author comment with Some a => avatarUrl a | None => "" end;
      vc_avatarAlt := login author;
      vc_usernameHref := "https://github.com/" +:+ login author;
      vc_username := login author;
      vc_timeHref := comment_url comment;
      vc_time := comment_createdAt comment;
      vc_pendingBadge := pending;
      vc_html := comment_bodyHTML comment;
      vc_reactable := comment;
    |}).

Definition renderResolveButton (t : Thread) : ResolveButton :=
  if thread_isResolved t then UnresolveConversation t else ResolveConversation t.

(** [this.replyHolders.get(id)], created on first use. *)
Definition ensureReplyHolder (id : string) (holders : ReplyHolders) : ReplyHolders :=
  match holders !! id with
  | Some _ => holders
  | None => <[id := RefHolder.new]> holders
  end.

Definition isPosting : bool :=
  match postingToThreadID props with
  | Null => false
  | _ => true
  end.

Definition renderThread (holders : ReplyHolders) (t : Thread) (cs : list Comment)
  : completion (ThreadBody * ReplyHolders) :=
  let holders := ensureReplyHolder (thread_id t) holders in
  let lastComment := last cs in
  rendered ← mapM renderComment cs;
  resolvedText ←
    (if thread_isResolved t
     then (by_ ← member (thread_resolvedBy t);
           Normal (Some ("This conversation was marked as resolved by @" +:+ login by_)))
     else Normal None);
  Normal ({|
    tb_comments := rendered;
    tb_replyDisabledClass := isPosting;
    tb_replyThreadId := thread_id t;
    tb_editorReadOnly := isPosting;
    tb_editorRefModel := thread_id t;
    tb_resolvedText := resolvedText;
    tb_replyButtonDisabled := isPosting;
    tb_replyButtonOnClick :=
      {| click_replyHolder := thread_id t;
         click_thread := t;
         click_lastComment := lastComment |};
    tb_resolveButton := renderResolveButton t;
  |}, holders).

(** *** renderReviewCommentThread, renderReviewCommentThreads

    The directory and base name shown in the header come from Node's
    [path.parse], and [this.threadHolders] only serves to scroll a thread
    into view; they take no part in what follows and are left out. *)

Definition isHighlighted (t : Thread) : bool :=
  match scrollToThreadID props with
  | Str id => String.eqb id (thread_id t)
  | _ => false
  end.

Definition renderReviewCommentThread (holders : ReplyHolders) (commentThread : CommentThread)
  : completion (option ThreadElement * ReplyHolders) :=
  let t := thread commentThread in
  match head (comments commentThread) with
  | None => Normal (None, holders)
  | Some rootComment =>
      translated ← getTranslatedPosition rootComment;
      (* alt={rootComment.author.login} *)
      author ← member (comment_author rootComment);
      rendered ← renderThread holders t (comments commentThread);
      Normal (Some {|
        te_id := "review-thread-" +:+ thread_id t;
        te_resolvedClass := thread_isResolved t;
        te_highlightClass := isHighlighted t;
        te_open := bool_decide (thread_id t ∈ threadIDsOpen props);
        te_lineNr := positionText translated;
        te_avatarSrc :=
          match comment_author rootComment with Some a => avatarUrl a | None => "" end;
        te_avatarAlt := login author;
        te_time := comment_createdAt rootComment;
        te_outdatedClass := negb (truthy (lineNumber translated));
        te_jumpToFileLine := lineNumber translated;
        te_jumpToFileDisabled := isEnabled (checkoutOp props);
        te_openDiffLine := comment_position rootComment;
        te_tooltip := isEnabled (checkoutOp props);
        te_patchPreview :=
          match comment_position rootComment with
          | Some position => Some (position, contextLines props)
          | None => None
          end;
        te_thread := rendered.1;
      |}, rendered.2)
  end.

(** [commentThreads.map(this.renderReviewCommentThread)]: the reply
    holders created for one thread are there for the next. *)
Fixpoint renderThreadList (holders : ReplyHolders) (cts : list CommentThread)
  : completion (list (option ThreadElement) * ReplyHolders) :=
  match cts with
  | [] => Normal ([], holders)
  | ct :: rest =>
      first ← renderReviewCommentThread holders ct;
      others ← renderThreadList first.2 rest;
      Normal (first.1 :: others.1, others.2)
  end.

Definition resolvedThreads (cts : list CommentThread) : nat :=
  length (filter (fun pair => thread_isResolved (thread pair) = true) cts).

Definition renderReviewCommentThreads (holders : ReplyHolders)
  : completion (option CommentsSection * ReplyHolders) :=
  let cts := commentThreads props in
  if (length cts =? 0)%nat
  then Normal (None, holders)
  else
    let resolved := Z.of_nat (resolvedThreads cts) in
    let total := Z.of_nat (length cts) in
    children ← renderThreadList holders cts;
    Normal (Some {|
      cs_open := commentSectionOpen props;
      cs_countText :=
        "Resolved" +:+ " " +:+ React_text (Num resolved) +:+ " "
        +:+ "of" +:+ " " +:+ React_text (Num total);
      cs_progressValue := resolved;
      cs_progressMax := total;
      cs_children := children.1;
    |}, children.2).

(** *** submitReply, submitCurrentComment *)

(** The holder behind a key; a holder starts out empty. *)
Definition holderAt (holders : ReplyHolders) (ref : string) : RefHolder.t Editor :=
  match holders !! ref with
  | Some holder => holder
  | None => RefHolder.new
  end.

(** [replyHolder] is [None] for [undefined], the answer of
    [this.replyHolders.get] for a thread that was never rendered. *)
Definition submitReply (holders : ReplyHolders) (replyHolder : option string)
           (t : Thread) (lastComment : option Comment)
  : completion AddSingleComment :=
  ref ← member replyHolder;
  let body := RefHolder.getOr (RefHolder.map getText (holderAt holders ref)) "" in
  let didSubmitComment := DidSubmitComment ref in
  let didFailComment := DidFailComment ref body in
  final ← member lastComment;
  Normal {|
    arg_body := body;
    arg_threadID := thread_id t;
    arg_replyToID := comment_id final;
    arg_path := comment_path final;
    arg_position := comment_position final;
    arg_didSubmitComment := didSubmitComment;
    arg_didFailComment := didFailComment;
  |}.

(** A click on the Comment button of a rendered thread. *)
Definition clickReplyButton (holders : ReplyHolders) (body : ThreadBody)
  : completion AddSingleComment :=
  let onClick := tb_replyButtonOnClick body in
  submitReply holders (Some (click_replyHolder onClick))
              (click_thread onClick) (click_lastComment onClick).

(** [threadId] is [evt.currentTarget.dataset.threadId]. *)
Definition submitCurrentComment (holders : ReplyHolders) (threadId : option string)
  : completion (option AddSingleComment) :=
  match threadId with
  | None => Normal None
  | Some threadID =>
      if String.eqb threadID "" then Normal None
      else
        found ← member (List.find
                          (fun each => String.eqb (thread_id (thread each)) threadID)
                          (commentThreads props));
        let replyHolder :=
          match holders !! threadID with Some _ => Some threadID | None => None end in
        call ← submitReply holders replyHolder (thread found) (last (comments found));
        Normal (Some call)
  end.

End ReviewsView.

(** Running one of the callbacks of a submission: the reply editor, when
    the holder has one, gets its text set; the second component lists the
    calls of [addSingleComment] made meanwhile. *)
Definition invoke (cb : Callback) (holders : ReplyHolders)
  : ReplyHolders * list AddSingleComment :=
  match cb with
  | DidSubmitComment ref => (alter (RefHolder.map (setText "")) ref holders, [])
  | DidFailComment ref body => (alter (RefHolder.map (setText body)) ref holders, [])
  end.

(** *** The refresh button and componentWillUnmount

    [props.refetch] is outside of the view: each call hands back a fresh
    subscription and keeps the completion callback for later.  The world
    below holds the view's state ([isRefreshing], [subs]) next to what the
    outside has seen: the subscriptions handed out, those whose callback
    ran, and those that were disposed. *)
Record World : Type := {
  isRefreshing : bool;
  subs : CompositeDisposable.t;
  refetchCalls : list nat;
  doneCalls : gset nat;
  disposeCalls : gset nat;
}.

Definition constructor : World :=
  {| isRefreshing := false; subs := CompositeDisposable.new;
     refetchCalls := []; doneCalls := ∅; disposeCalls := ∅ |}.

Definition refresh (w : World) : World :=
  if isRefreshing w then w
  else
    let sub := length (refetchCalls w) in
    {| isRefreshing := true;
       subs := CompositeDisposable.add sub (subs w);
       refetchCalls := refetchCalls w ++ [sub];
       doneCalls := doneCalls w;
       disposeCalls := disposeCalls w |}.

(** The callback given to [refetch] for subscription [sub], when it runs.
    React drops a [setState] on a component that is unmounted, and the view
    is unmounted exactly once [subs] is disposed. *)
Definition refetchCallback (sub : nat) (w : World) : World :=
  {| isRefreshing :=
       if CompositeDisposable.disposed (subs w) then isRefreshing w else false;
     subs := CompositeDisposable.remove sub (subs w);
     refetchCalls := refetchCalls w;
     doneCalls := {[sub]} ∪ doneCalls w;
     disposeCalls := disposeCalls w |}.

Definition componentWillUnmount (w : World) : World :=
  let result := CompositeDisposable.dispose (subs w) in
  {| isRefreshing := isRefreshing w;
     subs := result.1;
     refetchCalls := refetchCalls w;
     doneCalls := doneCalls w;
     disposeCalls := disposeCalls w ∪ result.2 |}.

(** The subscriptions in flight: handed out, callback not yet run. *)
Definition inFlight (w : World) : gset nat :=
  list_to_set (refetchCalls w) ∖ doneCalls w.

Inductive event : Type :=
| ClickRefresh
| RefetchDone (sub : nat).

(** What can happen to a mounted view: a click on the refresh button, or
    the callback of a subscription in flight running (once). *)
Inductive step : World -> event -> World -> Prop :=
| step_click w :
    step w ClickRefresh (refresh w)
| step_done w sub :
    sub ∈ inFlight w ->
    step w (RefetchDone sub) (refetchCallback sub w).

Inductive reachable : World -> Prop :=
| reachable_constructor : reachable constructor
| reachable_step w e w' : reachable w -> step w e w' -> reachable w'.

(** ** The scenarios of the test suite *)

(** The scenario of the tests: one comment on dir/file0 at position 10, a
    table that maps 10 to 10 and no table for local edits. *)
Definition user0 : Author := {| login := "user0"; avatarUrl := "user0.jpg" |}.

Definition comment0 : Comment :=
  {| comment_id := "0"; comment_author := Some user0;
     comment_bodyHTML := "i have opinions."; comment_path := "dir/file0";
     comment_position := Some 10; comment_isMinimized := false;
     comment_state := CommentSUBMITTED; comment_createdAt := "";
     comment_url := "" |}.

Definition table0 : TranslationsForFile :=
  {| rawPositions := {[10]}; diffToFilePosition := {[10 := 10]};
     fileTranslations := None; digest := "" |}.

Definition buildApp (threads : list CommentThread)
           (translations : option (gmap string TranslationsForFile)) : Props :=
  {| summaries := []; commentThreads := threads;
     commentTranslations := translations; contextLines := 4;
     checkoutOp := Disabled CURRENT;
     summarySectionOpen := true; commentSectionOpen := true;
     threadIDsOpen := ∅; postingToThreadID := Undefined;
     scrollToThreadID := Undefined;
     number := 100; repo := "github"; owner := "atom" |}.

Definition props0 : Props := buildApp [] (Some {["dir/file0" := table0]}).

(** The same comment when the file has local edits that move line 10 to
    line 12 and the pull request is checked out. *)
Definition table0_edited : TranslationsForFile :=
  {| rawPositions := {[10]}; diffToFilePosition := {[10 := 10]};
     fileTranslations := Some {[10 := {| newPosition := 12 |}]}; digest := "" |}.

Definition props_edited : Props := buildApp [] (Some {["dir/file0" := table0_edited]}).

(** A comment outside of the diff, one on a file without table, and one at
    a position that the table of its file does not map. *)
Definition comment_outdated : Comment :=
  {| comment_id := "4"; comment_author := Some user0; comment_bodyHTML := "";
     comment_path := "dir/file0"; comment_position := None;
     comment_isMinimized := false; comment_state := CommentSUBMITTED;
     comment_createdAt := ""; comment_url := "" |}.

Definition dolphin : Author := {| login := "dolphin"; avatarUrl := "pic-of-dolphin" |}.

Definition comment_file1 : Comment :=
  {| comment_id := "2"; comment_author := Some dolphin;
     comment_bodyHTML := "thanks for all the fish"; comment_path := "file1";
     comment_position := Some 20; comment_isMinimized := false;
     comment_state := CommentSUBMITTED; comment_createdAt := "";
     comment_url := "" |}.

Definition comment_unmapped : Comment :=
  {| comment_id := "5"; comment_author := Some user0; comment_bodyHTML := "";
     comment_path := "dir/file0"; comment_position := Some 11;
     comment_isMinimized := false; comment_state := CommentSUBMITTED;
     comment_createdAt := ""; comment_url := "" |}.

(** The three threads of the suite: a reply that is minimized, a reply that
    is pending, and a thread that is resolved. *)
Definition user1 : Author := {| login := "user1"; avatarUrl := "user1.jpg" |}.

Definition comment1 : Comment :=
  {| comment_id := "1"; comment_author := Some user1;
     comment_bodyHTML := "i disagree."; comment_path := "file0";
     comment_position := Some 10; comment_isMinimized := true;
     comment_state := CommentSUBMITTED; comment_createdAt := "";
     comment_url := "" |}.

Definition comment3 : Comment :=
  {| comment_id := "3"; comment_author := Some user0;
     comment_bodyHTML := "shhhh"; comment_path := "file1";
     comment_position := Some 20; comment_isMinimized := false;
     comment_state := CommentPENDING; comment_createdAt := "";
     comment_url := "" |}.

Definition comment_resolved : Comment :=
  {| comment_id := "6"; comment_author := Some user0; comment_bodyHTML := "";
     comment_path := "file2"; comment_position := Some 30;
     comment_isMinimized := false; comment_state := CommentSUBMITTED;
     comment_createdAt := ""; comment_url := "" |}.

(** A pending comment that was minimized. *)
Definition comment_hidden_pending : Comment :=
  {| comment_id := "7"; comment_author := Some user0;
     comment_bodyHTML := "shhhh"; comment_path := "file1";
     comment_position := Some 20; comment_isMinimized := true;
     comment_state := CommentPENDING; comment_createdAt := "";
     comment_url := "" |}.

Definition thread_abcd : Thread :=
  {| thread_id := "abcd"; thread_isResolved := false; thread_resolvedBy := None |}.
Definition thread_file1 : Thread :=
  {| thread_id := "thread1"; thread_isResolved := false; thread_resolvedBy := None |}.
Definition thread_resolved : Thread :=
  {| thread_id := "thread2"; thread_isResolved := true;
     thread_resolvedBy := Some user1 |}.

Definition commentThreads0 : list CommentThread :=
  [ {| thread := thread_abcd; comments := [comment0; comment1] |};
    {| thread := thread_file1; comments := [comment_file1; comment3] |};
    {| thread := thread_resolved; comments := [comment_resolved] |} ].

Definition tableFor (position : Z) : TranslationsForFile :=
  {| rawPositions := {[position]}; diffToFilePosition := {[position := position]};
     fileTranslations := None; digest := "" |}.

Definition commentTranslations0 : gmap string TranslationsForFile :=
  {[ "dir/file0" := tableFor 10; "file1" := tableFor 20; "file2" := tableFor 30 ]}.

Definition props_threads : Props := buildApp commentThreads0 (Some commentTranslations0).

(** The same threads while a comment is being posted to thread abcd. *)
Definition props_posting : Props :=
  {| summaries := []; commentThreads := commentThreads0;
     commentTranslations := Some commentTranslations0; contextLines := 4;
     checkoutOp := Disabled CURRENT;
     summarySectionOpen := true; commentSectionOpen := true;
     threadIDsOpen := ∅; postingToThreadID := Str "abcd";
     scrollToThreadID := Undefined;
     number := 100; repo := "github"; owner := "atom" |}.

(** The reply holders once the editor of thread abcd is mounted with some
    text in it. *)
Definition drafts0 : ReplyHolders :=
  {[ "abcd" := Some {| getText := "content" |}; "thread1" := None ]}.

(** Four review summaries: one pending, one that only says "commented",
    and two with something to show. *)
Definition review (id : string) (state : ReviewState) (body : string) : Review :=
  {| review_id := id; review_author := Some user0; review_state := state;
     review_bodyHTML := body; review_submittedAt := "" |}.

Definition summaries0 : list Review :=
  [ review "r0" APPROVED ""; review "r1" PENDING "draft";
    review "r2" COMMENTED ""; review "r3" COMMENTED "looks good" ].

Definition props_summaries : Props :=
  {| summaries := summaries0; commentThreads := [];
     commentTranslations := None; contextLines := 4;
     checkoutOp := Disabled CURRENT;
     summarySectionOpen := true; commentSectionOpen := true;
     threadIDsOpen := ∅; postingToThreadID := Undefined;
     scrollToThreadID := Undefined;
     number := 100; repo := "github"; owner := "atom" |}.

(** ** The specification's words, to compare the code with *)

(** A summary is suppressed when its state is "pending", or "commented"
    with an empty body. *)
Definition spec_suppressed (r : Review) : Prop :=
  review_state r = PENDING ∨ (review_state r = COMMENTED ∧ review_bodyHTML r = "").

Global Instance spec_suppressed_dec (r : Review) : Decision (spec_suppressed r).
Proof. unfold spec_suppressed. apply _. Defined.

(** resolved = Σ(thread.isResolved) over all supplied pairs. *)
Definition spec_resolved (cts : list CommentThread) : nat :=
  sum_list ((fun pair => if thread_isResolved (thread pair) then 1%nat else 0%nat) <$> cts).

(** The draft of a thread: the text of its reply editor, and the empty
    text while no editor is mounted. *)
Definition draft (holders : ReplyHolders) (threadID : string) : string :=
  match holders !! threadID with
  | Some (Some editor) => getText editor
  | _ => ""
  end.

(** What a reply to thread [t] whose last comment is [final] hands to
    [addSingleComment]: the body, the thread's id, then id, path and position
    of the last comment, and the two callbacks. *)
Definition spec_reply (body : string) (t : Thread) (final : Comment) : AddSingleComment :=
  {| arg_body := body;
     arg_threadID := thread_id t;
     arg_replyToID := comment_id final;
     arg_path := comment_path final;
     arg_position := comment_position final;
     arg_didSubmitComment := DidSubmitComment (thread_id t);
     arg_didFailComment := DidFailComment (thread_id t) body |}.

(** What it takes for a comment and for a thread to render without a
    [TypeError]: a comment that is shown has an author, the thread's root
    has one and its position translates, and a resolved thread says who
    resolved it. *)
Definition comment_renders (c : Comment) : Prop :=
  comment_isMinimized c = true ∨ is_Some (comment_author c).

Definition thread_body_renders (t : Thread) (cs : list Comment) : Prop :=
  Forall comment_renders cs
  ∧ (thread_isResolved t = true -> is_Some (thread_resolvedBy t)).

Definition thread_renders (props : Props) (ct : CommentThread) : Prop :=
  match head (comments ct) with
  | None => True
  | Some rootComment =>
      returns (getTranslatedPosition props rootComment)
      ∧ is_Some (comment_author rootComment)
      ∧ thread_body_renders (thread ct) (comments ct)
  end.

(** ** Navigation handlers, and what a render leaves behind *)

(** [ToString], which [parseInt] applies to its argument. *)
Definition ToString (v : value) : string :=
  match v with
  | Undefined => "undefined"
  | Null => "null"
  | Num n => Number_toString n
  | NaN => "NaN"
  | Str s => s
  end.

(** What [target.dataset.line] reads back from a [data-line] attribute:
    React writes a number as its decimal text and leaves the attribute out
    for [null] and [undefined]. *)
Definition dataset (attribute : value) : value :=
  match attribute with
  | Num n => Str (Number_toString n)
  | NaN => Str "NaN"
  | Str s => Str s
  | Null | Undefined => Undefined
  end.

(** The calls of the external [openFile] and [openDiff] actions. *)
Inductive Navigation : Type :=
| OpenFile (path : string) (line : value)
| OpenDiff (path : string) (line : value).

(** [openFile] and [openDiff], given [dataset.path] and [dataset.line] of
    the button that was clicked. *)
Definition openFile (props : Props) (path : string) (line : value) : option Navigation :=
  if negb (isEnabled (checkoutOp props))
  then Some (OpenFile path line)
  else None.

Definition openDiff (path : string) (line : value) : Navigation :=
  OpenDiff path (parseInt (ToString line)).

(** The [data-line] of the Open Diff button, [rootComment.position]. *)
Definition openDiffLine (el : ThreadElement) : value :=
  match te_openDiffLine el with
  | Some position => Num position
  | None => Null
  end.

(** The threads that get an element: those with a first comment. *)
Definition shownThreads (cts : list CommentThread) : list CommentThread :=
  filter (fun ct => is_Some (head (comments ct))) cts.

(** [this.replyHolders] after the threads were rendered in turn. *)
Definition holdersAfter (holders : ReplyHolders) (cts : list CommentThread)
  : ReplyHolders :=
  foldl (fun hs ct => ensureReplyHolder (thread_id (thread ct)) hs)
        holders (shownThreads cts).

(** The suite's view with local edits, while the pull request is not the
    revision checked out. *)
Definition props_elsewhere : Props :=
  {| summaries := []; commentThreads := [];
     commentTranslations := Some {["dir/file0" := table0_edited]};
     contextLines := 4; checkoutOp := Enabled;
     summarySectionOpen := true; commentSectionOpen := true;
     threadIDsOpen := ∅; postingToThreadID := Undefined;
     scrollToThreadID := Undefined;
     number := 100; repo := "github"; owner := "atom" |}.

(** The suite's threads when the view is asked to scroll to thread abcd. *)
Definition props_scrolled : Props :=
  {| summaries := []; commentThreads := commentThreads0;
     commentTranslations := Some commentTranslations0; contextLines := 4;
     checkoutOp := Disabled CURRENT;
     summarySectionOpen := true; commentSectionOpen := true;
     threadIDsOpen := ∅; postingToThreadID := Null;
     scrollToThreadID := Str "abcd";
     number := 100; repo := "github"; owner := "atom" |}.

(** * Properties *)

(** ** parseInt reads back what Number.prototype.toString writes *)

Lemma digit_value_pretty_N_char (d : N) :
  (d < 10)%N -> digit_value (pretty_N_char d) = Some d.
Proof.
  intros Hd.
  assert (d = 0 ∨ d = 1 ∨ d = 2 ∨ d = 3 ∨ d = 4 ∨ d = 5 ∨ d = 6 ∨ d = 7
          ∨ d = 8 ∨ d = 9)%N as Hcases by lia.
  repeat (destruct Hcases as [-> | Hcases]; [reflexivity |]).
  subst d. reflexivity.
Qed.

Lemma is_whitespace_pretty_N_char (d : N) : is_whitespace (pretty_N_char d) = false.
Proof. unfold pretty_N_char. by repeat case_match. Qed.

Lemma pretty_N_char_not_sign (d : N) :
  pretty_N_char d ≠ "-"%char ∧ pretty_N_char d ≠ "+"%char.
Proof. unfold pretty_N_char. by repeat case_match. Qed.

Lemma parse_digits_pretty_N_go (x : N) (s : string) :
  parse_digits 0 (pretty_N_go x s) = parse_digits x s.
Proof.
  revert s. induction (N.lt_wf_0 x) as [x _ IH]; intros s.
  destruct (decide (x = 0)%N) as [-> | Hx].
  - by rewrite pretty_N_go_0.
  - rewrite pretty_N_go_step by lia.
    rewrite IH by (apply N.div_lt; lia).
    cbn [parse_digits].
    rewrite digit_value_pretty_N_char by (apply N.mod_lt; lia).
    f_equal. rewrite (N.mul_comm _ 10). symmetry. by apply N.div_mod.
Qed.

Lemma pretty_N_go_head (x : N) (s : string) :
  (0 < x)%N -> ∃ d rest, pretty_N_go x s = String (pretty_N_char d) rest ∧ (d < 10)%N.
Proof.
  revert s. induction (N.lt_wf_0 x) as [x _ IH]; intros s Hx.
  rewrite pretty_N_go_step by done.
  destruct (decide (x `div` 10 = 0)%N) as [Hq | Hq].
  - rewrite Hq, pretty_N_go_0.
    exists (x `mod` 10)%N, s. split; [done | apply N.mod_lt; lia].
  - apply IH; [apply N.div_lt; lia | by apply N.neq_0_lt_0].
Qed.

Lemma pretty_N_go_shape (x : N) :
  (0 < x)%N ->
  trim_start (pretty_N_go x "") = pretty_N_go x ""
  ∧ strip_sign (pretty_N_go x "") = (1, pretty_N_go x "")
  ∧ starts_with_digit (pretty_N_go x "") = true.
Proof.
  intros Hx. destruct (pretty_N_go_head x "" Hx) as (d & rest & -> & Hd).
  destruct (pretty_N_char_not_sign d) as [Hminus Hplus].
  split; [| split].
  - cbn [trim_start]. by rewrite is_whitespace_pretty_N_char.
  - unfold strip_sign. repeat case_match; simplify_eq; done.
  - cbn [starts_with_digit]. rewrite digit_value_pretty_N_char by done.
    by apply bool_decide_eq_true.
Qed.

Lemma parseInt_pretty_N_go (x : N) :
  (0 < x)%N ->
  parseInt (pretty_N_go x "") = Num (Z.of_N x)
  ∧ parseInt (String "-" (pretty_N_go x "")) = Num (- Z.of_N x).
Proof.
  intros Hx. destruct (pretty_N_go_shape x Hx) as (Htrim & Hsign & Hdigit).
  unfold parseInt. split.
  - rewrite Htrim, Hsign, Hdigit, parse_digits_pretty_N_go. cbn [parse_digits].
    f_equal; lia.
  - cbn [trim_start]. change (is_whitespace "-") with false.
    cbn [strip_sign]. rewrite Hdigit, parse_digits_pretty_N_go. cbn [parse_digits].
    f_equal; lia.
Qed.

Lemma parseInt_Number_toString (n : Z) : parseInt (Number_toString n) = Num n.
Proof.
  destruct n as [| p | p]; [reflexivity | |].
  - change (Number_toString (Z.pos p)) with (pretty (N.pos p)).
    unfold pretty, pretty_N. rewrite decide_False by done.
    by apply parseInt_pretty_N_go.
  - change (Number_toString (Z.neg p)) with ("-" +:+ pretty (N.pos p)).
    unfold pretty, pretty_N. rewrite decide_False by done.
    by apply (parseInt_pretty_N_go (N.pos p)).
Qed.

(** ** The position translator *)

(** The key that [diffToFilePosition.get(parseInt(position, 10))] looks up
    is the position itself. *)
Lemma Map_get_parseInt {V} (m : gmap Z V) (position : Z) :
  Map_get m (parseInt (Number_toString position)) = m !! position.
Proof. by rewrite parseInt_Number_toString. Qed.

(** The translator once the sentinel cases and the table of the file are
    out of the way. *)
Lemma getTranslatedPosition_unfold props c translations tff position :
  commentTranslations props = Some translations ->
  comment_position c = Some position ->
  translations !! comment_path c = Some tff ->
  getTranslatedPosition props c =
    (lineNumber ←
       match fileTranslations tff with
       | Some ft =>
           if isCheckedOutPullRequest props
           then secondStage ft (of_lookup (diffToFilePosition tff !! position))
           else Normal (of_lookup (diffToFilePosition tff !! position))
       | None => Normal (of_lookup (diffToFilePosition tff !! position))
       end;
     Normal {| lineNumber := lineNumber; positionText := lineNumber |}).
Proof.
  intros Htr Hpos Hfile. unfold getTranslatedPosition.
  rewrite Htr, Hpos, Hfile. cbn. by rewrite Map_get_parseInt.
Qed.

Lemma isCheckedOutPullRequest_true props :
  why (checkoutOp props) = Some CURRENT -> isCheckedOutPullRequest props = true.
Proof. intros H. unfold isCheckedOutPullRequest. by apply bool_decide_eq_true. Qed.

Lemma secondStage_present ft adjusted entry :
  ft !! adjusted = Some entry ->
  secondStage ft (Num adjusted) = Normal (Num (newPosition entry)).
Proof. intros H. unfold secondStage. cbn. by rewrite H. Qed.

Lemma secondStage_absent ft adjusted :
  ft !! adjusted = None -> secondStage ft (Num adjusted) = Throw TypeError.
Proof. intros H. unfold secondStage. cbn. by rewrite H. Qed.

Lemma secondStage_undefined ft : secondStage ft Undefined = Throw TypeError.
Proof. reflexivity. Qed.

(** X1. When the translator throws: only past both sentinel guards, for a
    path without table or, on the second stage, for a key without entry;
    the error is a [TypeError]. *)
Lemma getTranslatedPosition_Throw props c e :
  getTranslatedPosition props c = Throw e ↔
  e = TypeError
  ∧ ∃ translations position,
      commentTranslations props = Some translations
      ∧ comment_position c = Some position
      ∧ (translations !! comment_path c = None
         ∨ ∃ tff ft,
             translations !! comment_path c = Some tff
             ∧ fileTranslations tff = Some ft
             ∧ why (checkoutOp props) = Some CURRENT
             ∧ (diffToFilePosition tff !! position = None
                ∨ ∃ adjusted,
                    diffToFilePosition tff !! position = Some adjusted
                    ∧ ft !! adjusted = None)).
Proof.
  split.
  - unfold getTranslatedPosition.
    destruct (commentTranslations props) as [translations |]; [| discriminate].
    destruct (comment_position c) as [position |]; [| discriminate].
    destruct (translations !! comment_path c) as [tff |] eqn:Hfile; cbn.
    + rewrite Map_get_parseInt.
      destruct (fileTranslations tff) as [ft |] eqn:Hft; [| discriminate].
      unfold isCheckedOutPullRequest. case_bool_decide as Hwhy; [| discriminate].
      destruct (diffToFilePosition tff !! position) as [adjusted |] eqn:Hadj; cbn.
      * destruct (ft !! adjusted) as [entry |] eqn:Hentry.
        { rewrite (secondStage_present _ _ _ Hentry). discriminate. }
        rewrite (secondStage_absent _ _ Hentry). cbn.
        intros [= <-]. split; [done |]. exists translations, position.
        split; [done |]. split; [done |]. right. exists tff, ft. rewrite Hadj. eauto 10.
      * intros [= <-]. split; [done |]. exists translations, position.
        split; [done |]. split; [done |]. right. exists tff, ft. rewrite Hadj. eauto 10.
    + intros [= <-]. split; [done |]. exists translations, position. eauto.
  - intros (-> & translations & position & Htr & Hpos & H).
    destruct H as [Hfile | (tff & ft & Hfile & Hft & Hwhy & H)].
    + unfold getTranslatedPosition. by rewrite Htr, Hpos, Hfile.
    + rewrite (getTranslatedPosition_unfold _ _ _ _ _ Htr Hpos Hfile), Hft.
      rewrite (isCheckedOutPullRequest_true _ Hwhy).
      destruct H as [-> | (adjusted & -> & Hentry)]; [reflexivity |].
      cbn [of_lookup]. by rewrite (secondStage_absent _ _ Hentry).
Qed.


Example translate_file0_edited :
  getTranslatedPosition props_edited comment0
  = Normal {| lineNumber := Num 12; positionText := Num 12 |}.
Proof. vm_compute. reflexivity. Qed.

(** C1. A non-null position that [diffToFilePosition] of the comment's file
    maps to an adjusted line translates to that line; when the file has a
    [fileTranslations] table and the pull request is the revision checked
    out, it translates to what [fileTranslations] maps the adjusted line to
    instead (and the call throws where that table has no entry for it). *)
Theorem C1_translated_position props c translations tff position adjusted :
  commentTranslations props = Some translations ->
  translations !! comment_path c = Some tff ->
  comment_position c = Some position ->
  diffToFilePosition tff !! position = Some adjusted ->
  match fileTranslations tff with
  | Some ft =>
      if bool_decide (why (checkoutOp props) = Some CURRENT)
      then match ft !! adjusted with
           | Some entry =>
               getTranslatedPosition props c
               = Normal {| lineNumber := Num (newPosition entry);
                           positionText := Num (newPosition entry) |}
           | None => getTranslatedPosition props c = Throw TypeError
           end
      else getTranslatedPosition props c
           = Normal {| lineNumber := Num adjusted; positionText := Num adjusted |}
  | None =>
      getTranslatedPosition props c
      = Normal {| lineNumber := Num adjusted; positionText := Num adjusted |}
  end.
Proof.
  intros Htr Hfile Hpos Hadj.
  rewrite (getTranslatedPosition_unfold _ _ _ _ _ Htr Hpos Hfile), Hadj.
  unfold isCheckedOutPullRequest. cbn [of_lookup].
  destruct (fileTranslations tff) as [ft |]; [| reflexivity].
  case_bool_decide; [| reflexivity].
  destruct (ft !! adjusted) as [entry |] eqn:Hentry.
  - by rewrite (secondStage_present _ _ _ Hentry).
  - by rewrite (secondStage_absent _ _ Hentry).
Qed.

Lemma C1_translated_position_witness :
  getTranslatedPosition props0 comment0
  = Normal {| lineNumber := Num 10; positionText := Num 10 |}.
Proof.
  exact (C1_translated_position props0 comment0 {["dir/file0" := table0]} table0 10 10
           eq_refl eq_refl eq_refl eq_refl).
Defined.

(** Without translation tables the first guard answers before the position
    is looked at: an empty text, not "outdated". *)
Lemma C2_null_position_counterexample :
  ¬ (∀ props c,
        comment_position c = None ->
        getTranslatedPosition props c
        = Normal {| lineNumber := Null; positionText := Str "outdated" |}).
Proof.
  intros H.
  specialize (H (buildApp [] None) comment_outdated eq_refl).
  vm_compute in H. discriminate H.
Qed.

(** C2 (amended). A comment whose position is null translates, when
    translation tables are available ([commentTranslations] is not null), to
    line number null and the text "outdated", whatever the tables hold; when
    [commentTranslations] is null the first guard answers line number null
    and the empty text instead. *)
Theorem C2_null_position props c :
  comment_position c = None ->
  (∀ translations,
      commentTranslations props = Some translations ->
      getTranslatedPosition props c
      = Normal {| lineNumber := Null; positionText := Str "outdated" |})
  ∧ (commentTranslations props = None ->
     getTranslatedPosition props c
     = Normal {| lineNumber := Null; positionText := Str "" |}).
Proof.
  intros Hpos. unfold getTranslatedPosition. split.
  - intros translations Htr. by rewrite Htr, Hpos.
  - intros Htr. by rewrite Htr.
Qed.

Lemma C2_null_position_witness :
  getTranslatedPosition props0 comment_outdated
  = Normal {| lineNumber := Null; positionText := Str "outdated" |}
  ∧ getTranslatedPosition (buildApp [] None) comment_outdated
    = Normal {| lineNumber := Null; positionText := Str "" |}.
Proof.
  split.
  - exact (proj1 (C2_null_position props0 comment_outdated eq_refl)
                 {["dir/file0" := table0]} eq_refl).
  - exact (proj2 (C2_null_position (buildApp [] None) comment_outdated eq_refl)
                 eq_refl).
Defined.


(** C10. With tables available and a non-null position the translator
    throws, instead of answering "outdated", when the tables have no entry
    for the comment's path, and when the position is absent from
    [diffToFilePosition] while the file has a [fileTranslations] table and
    the pull request is checked out; when the path is present and every key
    looked up is mapped, it returns. *)
Theorem C10_translator_throws props c translations position :
  commentTranslations props = Some translations ->
  comment_position c = Some position ->
  (translations !! comment_path c = None ->
     getTranslatedPosition props c = Throw TypeError)
  ∧ (∀ tff ft,
        translations !! comment_path c = Some tff ->
        diffToFilePosition tff !! position = None ->
        fileTranslations tff = Some ft ->
        why (checkoutOp props) = Some CURRENT ->
        getTranslatedPosition props c = Throw TypeError)
  ∧ (∀ tff adjusted,
        translations !! comment_path c = Some tff ->
        diffToFilePosition tff !! position = Some adjusted ->
        (∀ ft, fileTranslations tff = Some ft ->
               why (checkoutOp props) = Some CURRENT ->
               is_Some (ft !! adjusted)) ->
        returns (getTranslatedPosition props c)).
Proof.
  intros Htr Hpos. split; [| split].
  - intros Hfile. unfold getTranslatedPosition. by rewrite Htr, Hpos, Hfile.
  - intros tff ft Hfile Hraw Hft Hwhy.
    rewrite (getTranslatedPosition_unfold _ _ _ _ _ Htr Hpos Hfile), Hraw, Hft.
    by rewrite (isCheckedOutPullRequest_true _ Hwhy).
  - intros tff adjusted Hfile Hadj Hsecond.
    rewrite (getTranslatedPosition_unfold _ _ _ _ _ Htr Hpos Hfile), Hadj.
    cbn [of_lookup].
    destruct (fileTranslations tff) as [ft |] eqn:Hft; [| by eexists].
    unfold isCheckedOutPullRequest. case_bool_decide as Hwhy; [| by eexists].
    destruct (Hsecond ft eq_refl Hwhy) as [entry Hentry].
    rewrite (secondStage_present _ _ _ Hentry). by eexists.
Qed.

Lemma C10_translator_throws_witness :
  getTranslatedPosition props0 comment_file1 = Throw TypeError
  ∧ getTranslatedPosition props_edited comment_unmapped = Throw TypeError
  ∧ returns (getTranslatedPosition props_edited comment0).
Proof.
  split; [| split].
  - apply (C10_translator_throws props0 comment_file1 {["dir/file0" := table0]} 20
             eq_refl eq_refl).
    reflexivity.
  - apply (C10_translator_throws props_edited comment_unmapped
             {["dir/file0" := table0_edited]} 11 eq_refl eq_refl)
      with (tff := table0_edited) (ft := {[10 := {| newPosition := 12 |}]});
      reflexivity.
  - apply (C10_translator_throws props_edited comment0
             {["dir/file0" := table0_edited]} 10 eq_refl eq_refl)
      with (tff := table0_edited) (adjusted := 10); [reflexivity | reflexivity |].
    intros ft [= <-] _. by eexists.
Defined.

(** ** Review summaries *)

Lemma ReviewState_name_PENDING (s : ReviewState) :
  String.eqb (ReviewState_name s) "PENDING" = bool_decide (s = PENDING).
Proof. by destruct s. Qed.

Lemma ReviewState_name_COMMENTED (s : ReviewState) :
  String.eqb (ReviewState_name s) "COMMENTED" = bool_decide (s = COMMENTED).
Proof. by destruct s. Qed.

Lemma eqb_empty (s : string) : String.eqb s "" = bool_decide (s = "").
Proof. by destruct s. Qed.

(** The test of [renderReviewSummary] is the specification's. *)
Lemma renderReviewSummary_None (r : Review) :
  renderReviewSummary r = None ↔ spec_suppressed r.
Proof.
  unfold renderReviewSummary, spec_suppressed.
  rewrite ReviewState_name_PENDING, ReviewState_name_COMMENTED, eqb_empty.
  destruct (bool_decide_reflect (review_state r = PENDING)),
    (bool_decide_reflect (review_state r = COMMENTED)),
    (bool_decide_reflect (review_bodyHTML r = "")); cbn; intuition congruence.
Qed.

Lemma renderReviewSummary_Some (r : Review) (el : ReviewSummaryElement) :
  renderReviewSummary r = Some el ->
  rs_reactable el = r ∧ rs_key el = review_id r ∧ rs_html el = review_bodyHTML r.
Proof.
  unfold renderReviewSummary. case_match; [done |]. by intros [= <-].
Qed.

Lemma renderedSummaries_omap props :
  renderedSummaries props = omap renderReviewSummary (summaries props).
Proof.
  unfold renderedSummaries, renderReviewSummaries, React_children.
  destruct (summaries props) as [| r rs]; [reflexivity |].
  cbn [length Nat.eqb]. generalize (r :: rs). intros l.
  induction l as [| x l IH]; [reflexivity |].
  cbn. rewrite IH. by destruct (renderReviewSummary x).
Qed.

Lemma omap_step {A B} (f : A -> option B) (x : A) (l : list A) :
  omap f (x :: l) = match f x with Some y => y :: omap f l | None => omap f l end.
Proof. reflexivity. Qed.

Lemma omap_renderReviewSummary (l : list Review) :
  rs_reactable <$> omap renderReviewSummary l
  = filter (fun r => ¬ spec_suppressed r) l.
Proof.
  induction l as [| r l IH]; [reflexivity |].
  rewrite omap_step. destruct (renderReviewSummary r) as [el |] eqn:Hr.
  - rewrite filter_cons_True.
    + rewrite fmap_cons, IH. f_equal. by apply renderReviewSummary_Some.
    + rewrite <- renderReviewSummary_None. by rewrite Hr.
  - rewrite filter_cons_False; [done |].
    intros Hshown. by apply Hshown, renderReviewSummary_None.
Qed.

Example summaries0_rendered :
  rs_key <$> renderedSummaries props_summaries = ["r0"; "r3"].
Proof. vm_compute. reflexivity. Qed.

(** C3. The summaries on screen are, in the order of the input and once
    for each occurrence, the summaries that are neither pending nor
    "commented" with an empty body; none of those two kinds is among
    them. *)
Theorem C3_summary_filtering (props : Props) :
  rs_reactable <$> renderedSummaries props
  = filter (fun r => ¬ spec_suppressed r) (summaries props)
  ∧ Forall (fun el => review_state (rs_reactable el) ≠ PENDING
                      ∧ ¬ (review_state (rs_reactable el) = COMMENTED
                           ∧ review_bodyHTML (rs_reactable el) = ""))
           (renderedSummaries props)
  ∧ renderedSummaries props
    = omap renderReviewSummary (filter (fun r => ¬ spec_suppressed r) (summaries props)).
Proof.
  rewrite renderedSummaries_omap. split; [apply omap_renderReviewSummary |]. split.
  - apply Forall_forall. intros el Hel.
    assert (rs_reactable el ∈ rs_reactable <$> omap renderReviewSummary (summaries props))
      as Hin by (by apply list_elem_of_fmap_2).
    rewrite omap_renderReviewSummary in Hin.
    apply list_elem_of_filter in Hin as [Hshown _].
    unfold spec_suppressed in Hshown. tauto.
  - induction (summaries props) as [| r l IH]; [reflexivity |].
    rewrite omap_step. destruct (renderReviewSummary r) as [el |] eqn:Hr.
    + rewrite filter_cons_True by (rewrite <- renderReviewSummary_None; by rewrite Hr).
      by rewrite omap_step, Hr, IH.
    + rewrite filter_cons_False; [done |].
      intros Hshown. by apply Hshown, renderReviewSummary_None.
Qed.

(** ** Rendering threads: when it returns, and what it returns *)

Lemma bind_Normal {A B} (c : completion A) (k : A -> completion B) (b : B) :
  c ≫= k = Normal b ↔ ∃ a, c = Normal a ∧ k a = Normal b.
Proof.
  destruct c as [a | e]; cbn; split.
  - intros H. by exists a.
  - by intros (a' & [= <-] & H).
  - discriminate.
  - by intros (a' & [=] & _).
Qed.

Section Rendering.

Variable props : Props.

Lemma renderComment_returns (c : Comment) :
  comment_renders c -> returns (renderComment c).
Proof.
  unfold comment_renders, renderComment. intros [Hmin | [author Hauthor]].
  - rewrite Hmin. by eexists.
  - destruct (comment_isMinimized c); [by eexists |].
    rewrite Hauthor. by eexists.
Qed.

Lemma mapM_renderComment_returns (cs : list Comment) :
  Forall comment_renders cs -> returns (mapM renderComment cs).
Proof.
  induction 1 as [| c cs Hc _ [els IH]]; [by eexists |].
  destruct (renderComment_returns c Hc) as [el Hel].
  cbn [mapM]. rewrite Hel. cbn. rewrite IH. by eexists.
Qed.

(** Whatever a thread's body is, its reply box follows [isPosting] and its
    Comment button carries the thread and its last comment. *)
Lemma renderThread_Normal holders t cs body holders' :
  renderThread props holders t cs = Normal (body, holders') ->
  tb_replyDisabledClass body = isPosting props
  ∧ tb_editorReadOnly body = isPosting props
  ∧ tb_replyButtonDisabled body = isPosting props
  ∧ tb_replyButtonOnClick body
    = {| click_replyHolder := thread_id t; click_thread := t;
         click_lastComment := last cs |}
  ∧ mapM renderComment cs = Normal (tb_comments body)
  ∧ holders' = ensureReplyHolder (thread_id t) holders.
Proof.
  unfold renderThread. intros H.
  apply bind_Normal in H as (els & Hels & H).
  apply bind_Normal in H as (text & _ & H).
  injection H as <- <-. by rewrite Hels.
Qed.

Lemma renderThread_returns holders t cs :
  thread_body_renders t cs -> returns (renderThread props holders t cs).
Proof.
  intros [Hcs Hby]. unfold renderThread.
  destruct (mapM_renderComment_returns cs Hcs) as [els ->]. cbn.
  destruct (thread_isResolved t); [| by eexists].
  destruct (Hby eq_refl) as [by_ ->]. by eexists.
Qed.

Lemma renderReviewCommentThread_returns holders ct :
  thread_renders props ct -> returns (renderReviewCommentThread props holders ct).
Proof.
  unfold thread_renders, renderReviewCommentThread.
  destruct (head (comments ct)) as [rootComment |]; [| by eexists].
  intros ([translated ->] & [author ->] & Hbody). cbn.
  destruct (renderThread_returns holders (thread ct) (comments ct) Hbody) as [r ->].
  by eexists.
Qed.

Lemma renderThreadList_returns cts :
  Forall (thread_renders props) cts ->
  ∀ holders, returns (renderThreadList props holders cts).
Proof.
  induction 1 as [| ct cts Hct _ IH]; intros holders; [by eexists |].
  destruct (renderReviewCommentThread_returns holders ct Hct) as [first Hfirst].
  cbn [renderThreadList]. rewrite Hfirst. cbn.
  destruct (IH first.2) as [others ->]. by eexists.
Qed.

(** Every thread on screen has the body that [renderThread] gives it. *)
Lemma renderThreadList_bodies cts : ∀ holders children,
  renderThreadList props holders cts = Normal children ->
  Forall (fun el => ∃ hs t cs hs',
            renderThread props hs t cs = Normal (te_thread el, hs'))
         (React_children children.1).
Proof.
  induction cts as [| ct cts IH]; intros holders children H.
  - injection H as <-. constructor.
  - cbn [renderThreadList] in H.
    apply bind_Normal in H as (first & Hfirst & H).
    apply bind_Normal in H as (others & Hothers & H).
    injection H as <-. cbn [fst]. unfold React_children. rewrite omap_step.
    specialize (IH _ _ Hothers).
    destruct first.1 as [el |] eqn:Hel; cbn [id]; [| exact IH].
    constructor; [| exact IH].
    unfold renderReviewCommentThread in Hfirst.
    destruct (head (comments ct)) as [rootComment |].
    + apply bind_Normal in Hfirst as (translated & _ & Hfirst).
      apply bind_Normal in Hfirst as (author & _ & Hfirst).
      apply bind_Normal in Hfirst as ([body hs'] & Hbody & Hfirst).
      injection Hfirst as <-. cbn in Hel. injection Hel as <-. cbn. eauto.
    + injection Hfirst as <-. discriminate Hel.
Qed.

Lemma renderThreadList_length cts : ∀ holders children,
  renderThreadList props holders cts = Normal children ->
  length children.1 = length cts.
Proof.
  induction cts as [| ct cts IH]; intros holders children H.
  - by injection H as <-.
  - cbn [renderThreadList] in H.
    apply bind_Normal in H as (first & _ & H).
    apply bind_Normal in H as (others & Hothers & H).
    injection H as <-. cbn. f_equal. by eapply IH.
Qed.

End Rendering.

(** ** The progress indicator of the comments section *)

Lemma spec_resolved_filter (cts : list CommentThread) :
  spec_resolved cts = resolvedThreads cts.
Proof.
  unfold spec_resolved, resolvedThreads.
  induction cts as [| pair cts IH]; [reflexivity |].
  rewrite fmap_cons. cbn [sum_list]. rewrite IH.
  destruct (thread_isResolved (thread pair)) eqn:Hres.
  - by rewrite filter_cons_True.
  - rewrite filter_cons_False; [done |]. by rewrite Hres.
Qed.

Lemma resolvedThreads_le (cts : list CommentThread) :
  (resolvedThreads cts <= length cts)%nat.
Proof. apply length_filter. Qed.

Example progress_of_the_suite :
  match renderReviewCommentThreads props_threads ∅ with
  | Normal (Some section, _) =>
      cs_countText section = "Resolved 1 of 3"
      ∧ cs_progressValue section = 1 ∧ cs_progressMax section = 3
  | _ => False
  end.
Proof. vm_compute. done. Qed.

(** C4. The count of resolved threads in the progress indicator is the
    number of pairs whose thread is resolved and the total is the number of
    pairs, with 0 ≤ resolved ≤ total; three pairs of which one is resolved
    read "Resolved 1 of 3".  (No pairs: the section is not rendered.) *)
Theorem C4_resolved_count (props : Props) (holders : ReplyHolders) :
  (0 <= spec_resolved (commentThreads props) <= length (commentThreads props))%nat
  ∧ (commentThreads props = [] ->
     renderReviewCommentThreads props holders = Normal (None, holders))
  ∧ (commentThreads props ≠ [] ->
     Forall (thread_renders props) (commentThreads props) ->
     ∃ section holders',
       renderReviewCommentThreads props holders = Normal (Some section, holders')
       ∧ cs_progressValue section = Z.of_nat (spec_resolved (commentThreads props))
       ∧ cs_progressMax section = Z.of_nat (length (commentThreads props))
       ∧ 0 <= cs_progressValue section <= cs_progressMax section
       ∧ cs_countText section
         = "Resolved " +:+ Number_toString (cs_progressValue section)
           +:+ " of " +:+ Number_toString (cs_progressMax section)
       ∧ (length (commentThreads props) = 3%nat ->
          spec_resolved (commentThreads props) = 1%nat ->
          cs_countText section = "Resolved 1 of 3")).
Proof.
  pose proof (resolvedThreads_le (commentThreads props)) as Hle.
  rewrite spec_resolved_filter. split; [lia |]. split.
  - intros Hnil. unfold renderReviewCommentThreads. by rewrite Hnil.
  - intros Hcons Hrenders. unfold renderReviewCommentThreads.
    destruct (commentThreads props) as [| ct cts] eqn:Hcts; [done |].
    cbn [length Nat.eqb].
    destruct (renderThreadList_returns props _ Hrenders holders) as [children ->].
    cbn. eexists _, _. split; [reflexivity |]. cbn.
    split; [reflexivity |]. split; [reflexivity |]. split; [cbn in Hle; lia |].
    split; [reflexivity |].
    intros Hthree Hone. cbn [length] in Hthree. by rewrite Hthree, Hone.
Qed.

(** Discharges [thread_renders] and the like on concrete threads. *)
Ltac renders :=
  repeat match goal with
    | |- Forall _ _ => constructor
    | |- thread_renders _ _ => unfold thread_renders; cbn
    | |- thread_body_renders _ _ => split
    | |- comment_renders _ => first [left; reflexivity | right; by eexists]
    | |- _ ∧ _ => split
    | |- returns _ => by eexists
    | |- is_Some _ => by eexists
    | |- _ = true -> _ =>
        let H := fresh in intros H; first [discriminate H | by eexists]
    | |- True => exact I
    end.

Lemma C4_resolved_count_witness :
  ∃ section holders',
    renderReviewCommentThreads props_threads ∅ = Normal (Some section, holders')
    ∧ cs_progressValue section = 1
    ∧ cs_progressMax section = 3
    ∧ cs_countText section = "Resolved 1 of 3".
Proof.
  destruct (C4_resolved_count props_threads ∅) as (_ & _ & H).
  destruct H as (section & holders' & Hrender & Hvalue & Hmax & _ & _ & Htext).
  - discriminate.
  - renders.
  - exists section, holders'. split; [exact Hrender |].
    split; [exact Hvalue |]. split; [exact Hmax |].
    apply Htext; reflexivity.
Defined.

(** ** The line number in the header of a thread *)



(** ** Replies *)

Lemma submitReply_draft (holders : ReplyHolders) (ref : string) :
  RefHolder.getOr (RefHolder.map getText (holderAt holders ref)) "" = draft holders ref.
Proof.
  unfold holderAt, draft. by destruct (holders !! ref) as [[editor |] |].
Qed.

Lemma submitReply_Normal holders t final :
  submitReply holders (Some (thread_id t)) t (Some final)
  = Normal (spec_reply (draft holders (thread_id t)) t final).
Proof. unfold submitReply. cbn. by rewrite submitReply_draft. Qed.

(** Without a last comment there is nothing to address the reply to. *)
Lemma submitReply_no_comment holders ref t :
  submitReply holders (Some ref) t None = Throw TypeError.
Proof. reflexivity. Qed.

Lemma last_is_Some {A} (l : list A) : l ≠ [] -> is_Some (last l).
Proof.
  intros Hl. destruct l as [| x l] using rev_ind; [done |].
  rewrite last_snoc. by eexists.
Qed.

Example reply_of_the_suite :
  submitCurrentComment props_threads drafts0 (Some "abcd")
  = Normal (Some {| arg_body := "content"; arg_threadID := "abcd";
                    arg_replyToID := "1"; arg_path := "file0";
                    arg_position := Some 10;
                    arg_didSubmitComment := DidSubmitComment "abcd";
                    arg_didFailComment := DidFailComment "abcd" "content" |}).
Proof. vm_compute. reflexivity. Qed.

(** C5. Replying to a thread with comments calls [addSingleComment] with
    the draft's text, the thread's id and the id, path and position of the
    last comment of the thread, from the Comment button as from the
    github:submit-comment command. *)
Theorem C5_reply_to_last_comment (props : Props) (holders : ReplyHolders)
        (t : Thread) (cs : list Comment) :
  cs ≠ [] ->
  thread_body_renders t cs ->
  ∃ body holders' final,
    renderThread props holders t cs = Normal (body, holders')
    ∧ last cs = Some final
    ∧ (∀ drafts,
          clickReplyButton drafts body
          = Normal (spec_reply (draft drafts (thread_id t)) t final))
    ∧ (∀ drafts,
          thread_id t ≠ "" ->
          List.find (fun each => String.eqb (thread_id (thread each)) (thread_id t))
                    (commentThreads props)
          = Some {| thread := t; comments := cs |} ->
          is_Some (drafts !! thread_id t) ->
          submitCurrentComment props drafts (Some (thread_id t))
          = Normal (Some (spec_reply (draft drafts (thread_id t)) t final))).
Proof.
  intros Hcs Hrenders.
  destruct (renderThread_returns props holders t cs Hrenders) as [[body holders'] Hbody].
  destruct (last_is_Some cs Hcs) as [final Hfinal].
  exists body, holders', final. split; [exact Hbody |]. split; [exact Hfinal |].
  apply renderThread_Normal in Hbody as (_ & _ & _ & Hclick & _). split.
  - intros drafts. unfold clickReplyButton. rewrite Hclick. cbn.
    rewrite Hfinal. apply submitReply_Normal.
  - intros drafts Hid Hfind [holder Hholder]. unfold submitCurrentComment.
    destruct (String.eqb_spec (thread_id t) "") as [| _]; [done |].
    rewrite Hfind, Hholder. cbn [member mbind completion_bind JS.bind thread comments].
    by rewrite Hfinal, submitReply_Normal.
Qed.

Lemma C5_reply_to_last_comment_witness :
  ∃ body holders',
    renderThread props_threads ∅ thread_abcd [comment0; comment1]
    = Normal (body, holders')
    ∧ clickReplyButton drafts0 body
      = Normal (spec_reply "content" thread_abcd comment1).
Proof.
  destruct (C5_reply_to_last_comment props_threads ∅ thread_abcd [comment0; comment1])
    as (body & holders' & final & Hbody & Hfinal & Hclick & _).
  - discriminate.
  - renders.
  - exists body, holders'. split; [exact Hbody |].
    injection Hfinal as <-. apply Hclick.
Defined.

(** C6. When a submitted reply fails, [didFailComment] puts the text read
    at submission (the text of the reply editor then) back into the thread's
    reply editor, whatever the editor holds by then; it leaves the other
    editors alone and calls [addSingleComment] no more. *)
Theorem C6_failure_restores_draft (drafts : ReplyHolders) (t : Thread) (final : Comment) :
  ∃ call,
    submitReply drafts (Some (thread_id t)) t (Some final) = Normal call
    ∧ arg_body call = draft drafts (thread_id t)
    ∧ (∀ editor, drafts !! thread_id t = Some (Some editor) ->
                 arg_body call = getText editor)
    ∧ ∀ (later : ReplyHolders) (current : Editor),
        later !! thread_id t = Some (Some current) ->
        (invoke (arg_didFailComment call) later).1 !! thread_id t
        = Some (Some {| getText := arg_body call |})
        ∧ (∀ other, other ≠ thread_id t ->
                    (invoke (arg_didFailComment call) later).1 !! other = later !! other)
        ∧ (invoke (arg_didFailComment call) later).2 = [].
Proof.
  eexists. split; [apply submitReply_Normal |].
  split; [reflexivity |]. split.
  - intros editor Hdraft. cbn [spec_reply arg_body]. unfold draft. by rewrite Hdraft.
  - intros later current Hlater.
    cbn [invoke arg_didFailComment arg_body spec_reply fst snd].
    split; [| split; [| reflexivity]].
    + rewrite lookup_alter_eq. unfold RefHolder.t in *. by rewrite Hlater.
    + intros other Hother. by rewrite lookup_alter_ne.
Qed.

Lemma C6_failure_restores_draft_witness :
  ∃ call,
    submitReply drafts0 (Some "abcd") thread_abcd (Some comment1) = Normal call
    ∧ arg_body call = "content"
    ∧ (invoke (arg_didFailComment call) {[ "abcd" := Some {| getText := "" |} ]}).1
      !! "abcd"
      = Some (Some {| getText := "content" |}).
Proof.
  destruct (C6_failure_restores_draft drafts0 thread_abcd comment1)
    as (call & Hcall & _ & Hbody & Hfail).
  specialize (Hbody {| getText := "content" |} eq_refl). cbn in Hbody.
  exists call. split; [exact Hcall |]. split; [exact Hbody |].
  rewrite <- Hbody.
  apply (Hfail {[ "abcd" := Some {| getText := "" |} ]} {| getText := "" |}).
  reflexivity.
Defined.

(** ** The posting guard and the pending badge *)

Lemma CommentState_name_PENDING (s : CommentState) :
  String.eqb (CommentState_name s) "PENDING" = bool_decide (s = CommentPENDING).
Proof. by destruct s. Qed.

Lemma isPosting_true (props : Props) :
  postingToThreadID props ≠ Null -> isPosting props = true.
Proof. unfold isPosting. by destruct (postingToThreadID props). Qed.

(** A comment that is both pending and minimized shows the placeholder of
    a hidden comment, which carries no badge. *)
Lemma C7_pending_badge_counterexample :
  comment_state comment_hidden_pending = CommentPENDING
  ∧ renderComment comment_hidden_pending = Normal (HiddenCommentElement "7")
  ∧ ¬ (∀ c, comment_state c = CommentPENDING ->
            is_Some (comment_author c) ->
            ∃ shown, renderComment c = Normal (VisibleCommentElement shown)
                     ∧ vc_pendingBadge shown = true).
Proof.
  split; [reflexivity |]. split; [reflexivity |]. intros H.
  destruct (H comment_hidden_pending eq_refl) as (shown & Hshown & _).
  - by eexists.
  - discriminate Hshown.
Qed.

(** C7 (amended). While [postingToThreadID] is set, every thread on screen
    has its reply editor read-only and its Comment button disabled.  A
    comment that is not minimized carries the pending class and the pending
    badge exactly when its state is pending; a minimized comment shows the
    placeholder of a hidden comment instead. *)
Theorem C7_posting_guard (props : Props) :
  postingToThreadID props ≠ Null ->
  (∀ holders section holders',
      renderReviewCommentThreads props holders = Normal (Some section, holders') ->
      Forall (fun el => tb_editorReadOnly (te_thread el) = true
                        ∧ tb_replyButtonDisabled (te_thread el) = true
                        ∧ tb_replyDisabledClass (te_thread el) = true)
             (React_children (cs_children section)))
  ∧ (∀ holders,
        commentThreads props ≠ [] ->
        Forall (thread_renders props) (commentThreads props) ->
        ∃ section holders',
          renderReviewCommentThreads props holders = Normal (Some section, holders')
          ∧ length (cs_children section) = length (commentThreads props))
  ∧ (∀ c author,
        comment_isMinimized c = false ->
        comment_author c = Some author ->
        ∃ shown,
          renderComment c = Normal (VisibleCommentElement shown)
          ∧ vc_pendingBadge shown = bool_decide (comment_state c = CommentPENDING)
          ∧ vc_pendingClass shown = bool_decide (comment_state c = CommentPENDING))
  ∧ (∀ c, comment_isMinimized c = true ->
          renderComment c = Normal (HiddenCommentElement (comment_id c))).
Proof.
  intros Hposting. apply isPosting_true in Hposting.
  split; [| split; [| split]].
  - intros holders section holders' H. unfold renderReviewCommentThreads in H.
    destruct (length (commentThreads props) =? 0)%nat; [discriminate |].
    apply bind_Normal in H as (children & Hchildren & H).
    injection H as <- <-. cbn [cs_children].
    eapply Forall_impl; [by eapply renderThreadList_bodies |].
    intros el (hs & t & cs & hs' & Hbody). cbn beta.
    apply renderThread_Normal in Hbody as (-> & -> & -> & _). by rewrite Hposting.
  - intros holders Hcons Hrenders. unfold renderReviewCommentThreads.
    destruct (Nat.eqb_spec (length (commentThreads props)) 0) as [Hlen | _].
    { by apply nil_length_inv in Hlen. }
    destruct (renderThreadList_returns props _ Hrenders holders) as [children Hchildren].
    rewrite Hchildren. cbn. eexists _, _. split; [reflexivity |]. cbn.
    by eapply renderThreadList_length.
  - intros c author Hmin Hauthor. unfold renderComment.
    rewrite Hmin, Hauthor, CommentState_name_PENDING. cbn. by eexists.
  - intros c Hmin. unfold renderComment. by rewrite Hmin.
Qed.

Lemma C7_posting_guard_witness :
  ∃ section holders',
    renderReviewCommentThreads props_posting ∅ = Normal (Some section, holders')
    ∧ length (React_children (cs_children section)) = 3%nat
    ∧ Forall (fun el => tb_editorReadOnly (te_thread el) = true
                        ∧ tb_replyButtonDisabled (te_thread el) = true
                        ∧ tb_replyDisabledClass (te_thread el) = true)
             (React_children (cs_children section)).
Proof.
  destruct (C7_posting_guard props_posting) as (Hguard & Hrenders & _).
  - discriminate.
  - destruct (Hrenders ∅) as (section & holders' & Hsection & _).
    + discriminate.
    + renders.
    + exists section, holders'. split; [exact Hsection |].
      split; [| by eapply Hguard].
      vm_compute in Hsection. injection Hsection as <- _. reflexivity.
Defined.

(** ** The refresh guard *)

(** What holds of a mounted view however it got there: [subs] holds the
    subscriptions in flight, there is one exactly while [isRefreshing] is
    set, and subscriptions are numbered in the order of the calls. *)
Record refresh_invariant (w : World) : Prop := {
  inv_mounted : CompositeDisposable.disposed (subs w) = false;
  inv_subs : CompositeDisposable.disposables (subs w) = inFlight w;
  inv_busy : isRefreshing w = true -> inFlight w = {[ pred (length (refetchCalls w)) ]};
  inv_idle : isRefreshing w = false -> inFlight w = ∅;
  inv_fresh : ∀ sub, sub ∈ refetchCalls w -> (sub < length (refetchCalls w))%nat;
  inv_done : ∀ sub, sub ∈ doneCalls w -> sub ∈ refetchCalls w;
  inv_disposed : disposeCalls w = ∅;
}.

Lemma refresh_busy (w : World) : isRefreshing w = true -> refresh w = w.
Proof. intros H. unfold refresh. by rewrite H. Qed.

Lemma refresh_invariant_constructor : refresh_invariant constructor.
Proof.
  split; try done.
  intros sub Hsub. by apply elem_of_nil in Hsub.
Qed.

Lemma refresh_invariant_refresh (w : World) :
  refresh_invariant w -> refresh_invariant (refresh w).
Proof.
  intros Hinv. unfold refresh.
  destruct (isRefreshing w) eqn:Hbusy; [done |].
  destruct Hinv as [Hmounted Hsubs _ Hidle Hfresh Hdone Hdisposed].
  specialize (Hidle Hbusy).
  assert (length (refetchCalls w) ∉ doneCalls w) as Hnew.
  { intros Hin. apply Hdone, Hfresh in Hin. lia. }
  assert (inFlight
            {| isRefreshing := true;
               subs := CompositeDisposable.add (length (refetchCalls w)) (subs w);
               refetchCalls := refetchCalls w ++ [length (refetchCalls w)];
               doneCalls := doneCalls w; disposeCalls := disposeCalls w |}
          = {[ length (refetchCalls w) ]}) as Hflight.
  { unfold inFlight in *. cbn. rewrite list_to_set_app_L. cbn. set_solver. }
  split; cbn [isRefreshing subs refetchCalls doneCalls disposeCalls].
  - unfold CompositeDisposable.add. by rewrite Hmounted.
  - rewrite Hflight. unfold CompositeDisposable.add. rewrite Hmounted. cbn.
    rewrite Hsubs, Hidle. set_solver.
  - intros _. rewrite Hflight, length_app. cbn. f_equal. f_equal. lia.
  - discriminate.
  - intros sub Hsub. rewrite length_app. cbn.
    apply elem_of_app in Hsub as [Hsub | Hsub].
    + apply Hfresh in Hsub. lia.
    + apply list_elem_of_singleton in Hsub as ->. lia.
  - intros sub Hsub. apply elem_of_app. left. by apply Hdone.
  - exact Hdisposed.
Qed.

Lemma refresh_invariant_refetchCallback (w : World) (sub : nat) :
  refresh_invariant w -> sub ∈ inFlight w ->
  refresh_invariant (refetchCallback sub w).
Proof.
  intros [Hmounted Hsubs Hbusy Hidle Hfresh Hdone Hdisposed] Hsub.
  assert (inFlight w = {[sub]}) as Hone.
  { destruct (isRefreshing w).
    - rewrite Hbusy in * by done. set_solver.
    - rewrite Hidle in Hsub by done. set_solver. }
  assert (inFlight (refetchCallback sub w) = ∅) as Hflight.
  { unfold inFlight in *. cbn. set_solver. }
  split; cbn [refetchCallback isRefreshing subs refetchCalls doneCalls disposeCalls];
    rewrite ?Hmounted.
  - unfold CompositeDisposable.remove. by rewrite Hmounted.
  - rewrite Hflight. unfold CompositeDisposable.remove. rewrite Hmounted. cbn.
    rewrite Hsubs, Hone. set_solver.
  - discriminate.
  - intros _. exact Hflight.
  - exact Hfresh.
  - intros sub' Hsub'. apply elem_of_union in Hsub' as [Hsub' | Hsub'].
    + apply elem_of_singleton in Hsub' as ->.
      unfold inFlight in Hsub. apply elem_of_difference in Hsub as [Hsub _].
      by apply elem_of_list_to_set in Hsub.
    + by apply Hdone.
  - exact Hdisposed.
Qed.

Lemma reachable_invariant (w : World) : reachable w -> refresh_invariant w.
Proof.
  induction 1 as [| w e w' _ IH Hstep].
  - apply refresh_invariant_constructor.
  - destruct Hstep as [w | w sub Hsub].
    + by apply refresh_invariant_refresh.
    + by apply refresh_invariant_refetchCallback.
Qed.

(** C8. A click on the refresh button while [isRefreshing] is set calls
    [refetch] no more; the flag is set exactly while a refresh is in
    flight, so that there is never more than one; and
    [componentWillUnmount] disposes of the subscription in flight. *)
Theorem C8_refresh_guard (w : World) :
  reachable w ->
  (isRefreshing w = true -> refetchCalls (refresh w) = refetchCalls w)
  ∧ (isRefreshing w = true ↔ inFlight w ≠ ∅)
  ∧ (inFlight w ≠ ∅ -> refresh w = w)
  ∧ (size (inFlight w) <= 1)%nat
  ∧ (∀ sub, sub ∈ inFlight w -> sub ∈ disposeCalls (componentWillUnmount w))
  ∧ disposeCalls (componentWillUnmount w) = inFlight w.
Proof.
  intros Hreach. destruct (reachable_invariant w Hreach)
    as [Hmounted Hsubs Hbusy Hidle _ _ Hdisposed].
  assert (isRefreshing w = true ↔ inFlight w ≠ ∅) as Hflag.
  { destruct (isRefreshing w).
    - rewrite Hbusy by done. set_solver.
    - rewrite Hidle by done. split; [discriminate | done]. }
  assert (disposeCalls (componentWillUnmount w) = inFlight w) as Hgone.
  { unfold componentWillUnmount, CompositeDisposable.dispose.
    rewrite Hmounted. cbn. rewrite Hdisposed, Hsubs. set_solver. }
  split; [| split; [| split; [| split; [| split]]]].
  - intros H. by rewrite refresh_busy.
  - exact Hflag.
  - intros H. by apply refresh_busy, Hflag.
  - destruct (isRefreshing w).
    + rewrite Hbusy by done. by rewrite size_singleton.
    + rewrite Hidle by done. rewrite size_empty. lia.
  - intros sub Hsub. by rewrite Hgone.
  - exact Hgone.
Qed.

Lemma C8_refresh_guard_witness :
  refetchCalls (refresh (refresh constructor)) = [0%nat]
  ∧ disposeCalls (componentWillUnmount (refresh constructor)) = {[0%nat]}.
Proof.
  destruct (C8_refresh_guard (refresh constructor)) as (Hguard & _ & _ & _ & _ & Hgone).
  - exact (reachable_step _ ClickRefresh _ reachable_constructor
             (step_click constructor)).
  - split.
    + rewrite Hguard; reflexivity.
    + rewrite Hgone. unfold inFlight. cbn. set_solver.
Defined.


(** * Further properties of the view *)

(** ** The translator on the edges of its tables *)

(** X2. A position that [diffToFilePosition] does not map, for a file
    without second stage: the translator returns [undefined] twice, neither
    a line nor "outdated", and the thread shows no line text and the
    outdated styling. *)
Theorem translator_unmapped_position props c translations tff position :
  commentTranslations props = Some translations ->
  translations !! comment_path c = Some tff ->
  comment_position c = Some position ->
  diffToFilePosition tff !! position = None ->
  fileTranslations tff = None ∨ why (checkoutOp props) ≠ Some CURRENT ->
  getTranslatedPosition props c
  = Normal {| lineNumber := Undefined; positionText := Undefined |}
  ∧ ∀ holders ct el holders',
      head (comments ct) = Some c ->
      renderReviewCommentThread props holders ct = Normal (Some el, holders') ->
      React_text (te_lineNr el) = "" ∧ te_outdatedClass el = true.
Proof.
  intros Htr Hfile Hpos Hraw Hstage.
  assert (getTranslatedPosition props c
          = Normal {| lineNumber := Undefined; positionText := Undefined |}) as Hresult.
  { rewrite (getTranslatedPosition_unfold _ _ _ _ _ Htr Hpos Hfile), Hraw.
    destruct Hstage as [-> | Hwhy]; [reflexivity |].
    destruct (fileTranslations tff); [| reflexivity].
    unfold isCheckedOutPullRequest. by rewrite bool_decide_eq_false_2. }
  split; [exact Hresult |].
  intros holders ct el holders' Hroot Hrender.
  unfold renderReviewCommentThread in Hrender. rewrite Hroot, Hresult in Hrender.
  apply bind_Normal in Hrender as (translated & [= <-] & Hrender).
  apply bind_Normal in Hrender as (author & _ & Hrender).
  apply bind_Normal in Hrender as (body & _ & Hrender).
  by injection Hrender as <- _.
Qed.

Lemma translator_unmapped_position_witness :
  getTranslatedPosition props0 comment_unmapped
  = Normal {| lineNumber := Undefined; positionText := Undefined |}.
Proof.
  apply (translator_unmapped_position props0 comment_unmapped
           {["dir/file0" := table0]} table0 11 eq_refl eq_refl eq_refl eq_refl).
  by left.
Defined.

(** X3. The translator looks at nothing but the reason of the checkout
    operation, whether tables are loaded, the table of the comment's own
    path, and the comment's path and position: views and comments that
    agree on these get the same answer. *)
Theorem translator_frame props props' c c' :
  why (checkoutOp props) = why (checkoutOp props') ->
  comment_path c = comment_path c' ->
  comment_position c = comment_position c' ->
  match commentTranslations props, commentTranslations props' with
  | Some translations, Some translations' =>
      translations !! comment_path c = translations' !! comment_path c
  | None, None => True
  | _, _ => False
  end ->
  getTranslatedPosition props c = getTranslatedPosition props' c'.
Proof.
  intros Hwhy Hpath Hpos Htables. unfold getTranslatedPosition, isCheckedOutPullRequest.
  rewrite <- Hwhy, <- Hpath, <- Hpos.
  destruct (commentTranslations props), (commentTranslations props'); try done.
  by rewrite Htables.
Qed.

Lemma translator_frame_witness :
  getTranslatedPosition props0 comment0 = getTranslatedPosition props_threads comment0.
Proof.
  apply (translator_frame props0 props_threads comment0 comment0);
    reflexivity.
Defined.

(** X4. Unless the pull request is the revision checked out, the
    [fileTranslations] of a file are not consulted: for a path that has a
    table the translator returns what [diffToFilePosition] answers, and does
    not throw. *)
Theorem translator_not_checked_out props c translations tff position :
  why (checkoutOp props) ≠ Some CURRENT ->
  commentTranslations props = Some translations ->
  translations !! comment_path c = Some tff ->
  comment_position c = Some position ->
  getTranslatedPosition props c
  = Normal {| lineNumber := of_lookup (diffToFilePosition tff !! position);
              positionText := of_lookup (diffToFilePosition tff !! position) |}.
Proof.
  intros Hwhy Htr Hfile Hpos.
  rewrite (getTranslatedPosition_unfold _ _ _ _ _ Htr Hpos Hfile).
  destruct (fileTranslations tff); [| reflexivity].
  unfold isCheckedOutPullRequest. by rewrite bool_decide_eq_false_2.
Qed.

Lemma translator_not_checked_out_witness :
  getTranslatedPosition props_elsewhere comment0
  = Normal {| lineNumber := Num 10; positionText := Num 10 |}.
Proof.
  apply (translator_not_checked_out props_elsewhere comment0
           {["dir/file0" := table0_edited]} table0_edited 10);
    [discriminate | reflexivity ..].
Defined.

(** ** What a render of the threads returns *)

Lemma holdersAfter_cons (holders : ReplyHolders) (ct : CommentThread)
      (cts : list CommentThread) :
  holdersAfter holders (ct :: cts)
  = match head (comments ct) with
    | Some _ => holdersAfter (ensureReplyHolder (thread_id (thread ct)) holders) cts
    | None => holdersAfter holders cts
    end.
Proof.
  unfold holdersAfter, shownThreads.
  destruct (head (comments ct)) as [root |] eqn:Hroot.
  - rewrite filter_cons_True by (rewrite Hroot; by eexists). reflexivity.
  - rewrite filter_cons_False; [reflexivity |]. rewrite Hroot. by intros [? ?].
Qed.

Lemma shownThreads_cons (ct : CommentThread) (cts : list CommentThread) :
  shownThreads (ct :: cts)
  = match head (comments ct) with
    | Some _ => ct :: shownThreads cts
    | None => shownThreads cts
    end.
Proof.
  unfold shownThreads.
  destruct (head (comments ct)) as [root |] eqn:Hroot.
  - rewrite filter_cons_True by (rewrite Hroot; by eexists). reflexivity.
  - rewrite filter_cons_False; [reflexivity |]. rewrite Hroot. by intros [? ?].
Qed.

Section RenderedThreads.

Variable props : Props.

Lemma renderComment_Normal (c : Comment) :
  returns (renderComment c) -> comment_renders c.
Proof.
  unfold renderComment, comment_renders. intros [el Hel].
  destruct (comment_isMinimized c); [by left | right].
  destruct (comment_author c); [by eexists | discriminate].
Qed.

Lemma mapM_renderComment_Normal (cs : list Comment) :
  returns (mapM renderComment cs) -> Forall comment_renders cs.
Proof.
  induction cs as [| c cs IH]; intros [els Hels]; [constructor |].
  cbn [mapM] in Hels.
  apply bind_Normal in Hels as (el & Hel & Hels).
  apply bind_Normal in Hels as (rest & Hrest & _).
  constructor; [apply renderComment_Normal | apply IH]; by eexists.
Qed.

Lemma renderThread_body_renders holders t cs :
  returns (renderThread props holders t cs) -> thread_body_renders t cs.
Proof.
  intros [r H]. unfold renderThread in H.
  apply bind_Normal in H as (els & Hels & H).
  apply bind_Normal in H as (text & Htext & _). split.
  - apply mapM_renderComment_Normal. by eexists.
  - intros Hres. rewrite Hres in Htext.
    destruct (thread_resolvedBy t); [by eexists | discriminate].
Qed.

(** One thread: either it has no comment and gets no element, or its
    element is put together from the translated position of the root
    comment and the body of the thread. *)
Lemma renderReviewCommentThread_Normal holders ct r :
  renderReviewCommentThread props holders ct = Normal r ->
  match head (comments ct) with
  | None => r = (None, holders)
  | Some root =>
      ∃ translated author body el,
        getTranslatedPosition props root = Normal translated
        ∧ comment_author root = Some author
        ∧ renderThread props holders (thread ct) (comments ct)
          = Normal (body, ensureReplyHolder (thread_id (thread ct)) holders)
        ∧ r = (Some el, ensureReplyHolder (thread_id (thread ct)) holders)
        ∧ te_id el = "review-thread-" +:+ thread_id (thread ct)
        ∧ te_highlightClass el = isHighlighted props (thread ct)
        ∧ te_lineNr el = positionText translated
        ∧ te_jumpToFileLine el = lineNumber translated
        ∧ te_outdatedClass el = negb (truthy (lineNumber translated))
        ∧ te_jumpToFileDisabled el = isEnabled (checkoutOp props)
        ∧ te_tooltip el = isEnabled (checkoutOp props)
        ∧ te_openDiffLine el = comment_position root
        ∧ te_patchPreview el
          = (fun position => (position, contextLines props)) <$> comment_position root
        ∧ te_thread el = body
  end.
Proof.
  unfold renderReviewCommentThread. intros H.
  destruct (head (comments ct)) as [root |]; [| by injection H as <-].
  apply bind_Normal in H as (translated & Htranslated & H).
  apply bind_Normal in H as (author & Hauthor & H).
  apply bind_Normal in H as ([body holders'] & Hbody & H).
  pose proof (renderThread_Normal _ _ _ _ _ _ Hbody) as (_ & _ & _ & _ & _ & ->).
  destruct (comment_author root) as [author' |] eqn:Hroot; [| discriminate].
  injection Hauthor as ->.
  injection H as <-. eexists translated, author, body, _.
  split; [done |]. split; [done |]. split; [done |]. split; [reflexivity |].
  cbn. by destruct (comment_position root).
Qed.

Lemma renderReviewCommentThread_thread_renders holders ct :
  returns (renderReviewCommentThread props holders ct) -> thread_renders props ct.
Proof.
  intros [r H]. apply renderReviewCommentThread_Normal in H.
  unfold thread_renders. destruct (head (comments ct)) as [root |]; [| done].
  destruct H as (translated & author & body & el & Htr & Hauthor & Hbody & _).
  split; [by eexists |]. split; [by eexists |].
  eapply renderThread_body_renders. by eexists.
Qed.

Lemma renderThreadList_thread_renders cts : ∀ holders,
  returns (renderThreadList props holders cts) -> Forall (thread_renders props) cts.
Proof.
  induction cts as [| ct cts IH]; intros holders [children H]; [constructor |].
  cbn [renderThreadList] in H.
  apply bind_Normal in H as (first & Hfirst & H).
  apply bind_Normal in H as (others & Hothers & _).
  constructor.
  - eapply renderReviewCommentThread_thread_renders. by eexists.
  - eapply IH. by eexists.
Qed.

(** The elements on screen are those of the threads with a comment, in
    order, and the reply holders are those of [holdersAfter]. *)
Lemma renderThreadList_Normal cts : ∀ holders children,
  renderThreadList props holders cts = Normal children ->
  Forall2 (fun el ct => ∃ hs hs',
             renderReviewCommentThread props hs ct = Normal (Some el, hs'))
          (React_children children.1) (shownThreads cts)
  ∧ children.2 = holdersAfter holders cts.
Proof.
  induction cts as [| ct cts IH]; intros holders children H.
  - injection H as <-. split; [constructor | reflexivity].
  - cbn [renderThreadList] in H.
    apply bind_Normal in H as (first & Hfirst & H).
    apply bind_Normal in H as (others & Hothers & H).
    injection H as <-. cbn [fst snd].
    destruct (IH _ _ Hothers) as [Hrest Hholders].
    rewrite holdersAfter_cons, shownThreads_cons. unfold React_children in *.
    rewrite omap_step.
    pose proof (renderReviewCommentThread_Normal _ _ _ Hfirst) as Hshape.
    destruct (head (comments ct)) as [root |].
    + destruct Hshape as (translated & author & body & el & _ & _ & _ & -> & _).
      cbn [fst snd id] in *. split; [| exact Hholders].
      constructor; [eauto | exact Hrest].
    + subst first. cbn [fst snd id] in *. by split.
Qed.

(** The elements do not depend on the reply holders the render starts
    from. *)
Lemma renderReviewCommentThread_holders holders holders' ct r :
  renderReviewCommentThread props holders ct = Normal r ->
  ∃ hs, renderReviewCommentThread props holders' ct = Normal (r.1, hs).
Proof.
  unfold renderReviewCommentThread, renderThread.
  destruct (head (comments ct)) as [root |]; [| intros [= <-]; by eexists].
  intros H.
  apply bind_Normal in H as (translated & -> & H).
  apply bind_Normal in H as (author & -> & H).
  apply bind_Normal in H as (body & Hbody & H).
  apply bind_Normal in Hbody as (els & -> & Hbody).
  apply bind_Normal in Hbody as (text & -> & Hbody).
  injection Hbody as <-. injection H as <-. cbn. by eexists.
Qed.

Lemma renderThreadList_holders cts : ∀ holders holders' children,
  renderThreadList props holders cts = Normal children ->
  renderThreadList props holders' cts = Normal (children.1, holdersAfter holders' cts).
Proof.
  induction cts as [| ct cts IH]; intros holders holders' children H.
  - by injection H as <-.
  - cbn [renderThreadList] in H.
    apply bind_Normal in H as (first & Hfirst & H).
    apply bind_Normal in H as (others & Hothers & H).
    injection H as <-.
    destruct (renderReviewCommentThread_holders _ holders' _ _ Hfirst) as [hs Hfirst'].
    cbn [renderThreadList]. rewrite Hfirst'.
    cbn [mbind completion_bind JS.bind fst snd].
    rewrite (IH _ hs _ Hothers). cbn [mbind completion_bind JS.bind fst snd].
    f_equal. f_equal. rewrite holdersAfter_cons.
    apply renderReviewCommentThread_Normal in Hfirst'.
    destruct (head (comments ct)) as [root |].
    + destruct Hfirst' as (_ & _ & _ & _ & _ & _ & _ & [= _ ->] & _). reflexivity.
    + by injection Hfirst' as _ ->.
Qed.

End RenderedThreads.

(** The comments section: which holders it leaves, and that its elements do
    not depend on the holders it starts from. *)
Lemma renderReviewCommentThreads_Normal props holders section holders' :
  renderReviewCommentThreads props holders = Normal (section, holders') ->
  holders' = holdersAfter holders (commentThreads props)
  ∧ (∀ hs, renderReviewCommentThreads props hs
           = Normal (section, holdersAfter hs (commentThreads props)))
  ∧ match section with
    | None => commentThreads props = []
    | Some sec =>
        ∃ children,
          renderThreadList props holders (commentThreads props) = Normal children
          ∧ cs_children sec = children.1
          ∧ cs_progressMax sec = Z.of_nat (length (commentThreads props))
    end.
Proof.
  unfold renderReviewCommentThreads.
  destruct (Nat.eqb_spec (length (commentThreads props)) 0) as [Hlen | Hlen].
  - apply nil_length_inv in Hlen. rewrite Hlen. by intros [= <- <-].
  - intros H. apply bind_Normal in H as (children & Hchildren & H).
    injection H as <- <-.
    destruct (renderThreadList_Normal _ _ _ _ Hchildren) as [_ Hholders].
    split; [exact Hholders |]. split; [| by exists children].
    intros hs. by rewrite (renderThreadList_holders _ _ _ hs _ Hchildren).
Qed.

Lemma ensureReplyHolder_lookup (id other : string) (holders : ReplyHolders) :
  ensureReplyHolder id holders !! other
  = match holders !! other with
    | Some holder => Some holder
    | None => if decide (id = other) then Some None else None
    end.
Proof.
  unfold ensureReplyHolder. destruct (holders !! id) as [holder |] eqn:Hid.
  - destruct (holders !! other) eqn:Hother; [done |].
    rewrite decide_False; [done |]. intros ->. unfold RefHolder.t in *. congruence.
  - rewrite lookup_insert. case_decide as Heq.
    + subst other. unfold RefHolder.t in *. rewrite Hid. reflexivity.
    + unfold RefHolder.t in *. destruct (holders !! other); reflexivity.
Qed.

Lemma draft_ensureReplyHolder (id other : string) (holders : ReplyHolders) :
  draft (ensureReplyHolder id holders) other = draft holders other.
Proof.
  unfold draft. rewrite ensureReplyHolder_lookup.
  destruct (holders !! other) as [holder |]; [done |]. by case_decide.
Qed.

Lemma holdersAfter_spec (cts : list CommentThread) : ∀ (holders : ReplyHolders),
  holders ⊆ holdersAfter holders cts
  ∧ (∀ id, draft (holdersAfter holders cts) id = draft holders id)
  ∧ (∀ ct, ct ∈ shownThreads cts ->
           is_Some (holdersAfter holders cts !! thread_id (thread ct)))
  ∧ (∀ id, is_Some (holdersAfter holders cts !! id) ->
           is_Some (holders !! id)
           ∨ ∃ ct, ct ∈ shownThreads cts ∧ thread_id (thread ct) = id).
Proof.
  induction cts as [| ct cts IH]; intros holders.
  - split; [done |]. split; [done |]. split; [| by left].
    intros ct Hct. by apply elem_of_nil in Hct.
  - rewrite holdersAfter_cons, shownThreads_cons.
    destruct (head (comments ct)) as [root |]; [| apply IH].
    destruct (IH (ensureReplyHolder (thread_id (thread ct)) holders))
      as (Hsub & Hdraft & Hshown & Hdom).
    assert (holders ⊆ ensureReplyHolder (thread_id (thread ct)) holders) as Hensure.
    { apply map_subseteq_spec. intros id holder Hid.
      rewrite ensureReplyHolder_lookup. unfold RefHolder.t in *. by rewrite Hid. }
    split; [by etrans |]. split; [| split].
    + intros id. by rewrite Hdraft, draft_ensureReplyHolder.
    + intros ct' Hct'. apply elem_of_cons in Hct' as [-> | Hct']; [| by apply Hshown].
      assert (is_Some (ensureReplyHolder (thread_id (thread ct)) holders
                       !! thread_id (thread ct))) as [holder Hholder].
      { rewrite ensureReplyHolder_lookup.
        destruct (holders !! thread_id (thread ct)); [by eexists |].
        rewrite decide_True by done. by eexists. }
      exists holder. eapply lookup_weaken; [exact Hholder | exact Hsub].
    + intros id Hid. destruct (Hdom id Hid) as [Hbefore | (ct' & Hct' & Heq)].
      * rewrite ensureReplyHolder_lookup in Hbefore.
        destruct (holders !! id) as [holder |]; [left; by eexists |].
        case_decide as Heq; [| by destruct Hbefore].
        right. exists ct. split; [apply elem_of_cons; by left | done].
      * right. exists ct'. split; [apply elem_of_cons; by right | done].
Qed.

Lemma holdersAfter_fixed (cts : list CommentThread) : ∀ (holders : ReplyHolders),
  (∀ ct, ct ∈ shownThreads cts -> is_Some (holders !! thread_id (thread ct))) ->
  holdersAfter holders cts = holders.
Proof.
  induction cts as [| ct cts IH]; intros holders Hall; [reflexivity |].
  rewrite holdersAfter_cons. rewrite shownThreads_cons in Hall.
  destruct (head (comments ct)) as [root |]; [| by apply IH].
  assert (ensureReplyHolder (thread_id (thread ct)) holders = holders) as ->.
  { unfold ensureReplyHolder.
    destruct (Hall ct) as [holder Hholder]; [apply elem_of_cons; by left |].
    unfold RefHolder.t in *. by rewrite Hholder. }
  apply IH. intros ct' Hct'. apply Hall, elem_of_cons. by right.
Qed.

(** X5. The comments section renders without a [TypeError] exactly when
    every thread that has comments has a root comment whose position
    translates and whose author is known, an author for every comment that
    is not minimized, and, if it is resolved, the user who resolved it. *)
Theorem comments_section_renders_iff (props : Props) (holders : ReplyHolders) :
  returns (renderReviewCommentThreads props holders)
  ↔ Forall (fun ct =>
              match head (comments ct) with
              | None => True
              | Some rootComment =>
                  returns (getTranslatedPosition props rootComment)
                  ∧ is_Some (comment_author rootComment)
                  ∧ Forall (fun c => comment_isMinimized c = true
                                     ∨ is_Some (comment_author c))
                           (comments ct)
                  ∧ (thread_isResolved (thread ct) = true ->
                     is_Some (thread_resolvedBy (thread ct)))
              end)
           (commentThreads props).
Proof.
  change (returns (renderReviewCommentThreads props holders)
          ↔ Forall (thread_renders props) (commentThreads props)).
  unfold renderReviewCommentThreads.
  destruct (Nat.eqb_spec (length (commentThreads props)) 0) as [Hlen | Hlen].
  - apply nil_length_inv in Hlen. rewrite Hlen. split; [constructor | by eexists].
  - split.
    + intros [r H]. apply bind_Normal in H as (children & Hchildren & _).
      eapply renderThreadList_thread_renders. by eexists.
    + intros Hall.
      destruct (renderThreadList_returns props _ Hall holders) as [children ->].
      by eexists.
Qed.

(** X6. Rendering the comments section keeps every reply holder and every
    draft, gives each thread on screen a holder, adds holders for those
    threads only, and changes nothing when done again. *)
Theorem render_keeps_reply_holders props holders section holders' :
  renderReviewCommentThreads props holders = Normal (section, holders') ->
  holders ⊆ holders'
  ∧ (∀ id, draft holders' id = draft holders id)
  ∧ (∀ ct, ct ∈ shownThreads (commentThreads props) ->
           is_Some (holders' !! thread_id (thread ct)))
  ∧ (∀ id, is_Some (holders' !! id) ->
           is_Some (holders !! id)
           ∨ ∃ ct, ct ∈ shownThreads (commentThreads props)
                   ∧ thread_id (thread ct) = id)
  ∧ renderReviewCommentThreads props holders' = Normal (section, holders').
Proof.
  intros H. apply renderReviewCommentThreads_Normal in H as (-> & Hagain & _).
  destruct (holdersAfter_spec (commentThreads props) holders)
    as (Hsub & Hdraft & Hshown & Hdom).
  split; [done |]. split; [done |]. split; [done |]. split; [done |].
  rewrite Hagain. f_equal. f_equal. by apply holdersAfter_fixed.
Qed.

Lemma render_keeps_reply_holders_witness :
  ∃ section holders',
    renderReviewCommentThreads props_threads drafts0 = Normal (section, holders')
    ∧ draft holders' "abcd" = "content"
    ∧ is_Some (holders' !! "thread2")
    ∧ renderReviewCommentThreads props_threads holders' = Normal (section, holders').
Proof.
  destruct (renderReviewCommentThreads props_threads drafts0)
    as [[section holders'] |] eqn:Hrender; [| vm_compute in Hrender; discriminate].
  destruct (render_keeps_reply_holders _ _ _ _ Hrender)
    as (_ & Hdraft & Hshown & _ & Hagain).
  exists section, holders'. split; [reflexivity |]. split; [| split].
  - by rewrite Hdraft.
  - apply (Hshown {| thread := thread_resolved; comments := [comment_resolved] |}).
    unfold shownThreads. apply list_elem_of_filter. split; [by eexists |].
    cbn. repeat constructor.
  - exact Hagain.
Defined.

(** ** The github:submit-comment command *)

Lemma find_thread (props : Props) (id : string) (ct : CommentThread) :
  List.find (fun each => String.eqb (thread_id (thread each)) id) (commentThreads props)
  = Some ct ->
  ct ∈ commentThreads props ∧ thread_id (thread ct) = id.
Proof.
  intros H. apply List.find_some in H as [Hin Heq].
  split; [by apply list_elem_of_In | by apply String.eqb_eq].
Qed.

Lemma last_head_is_Some {A} (l : list A) : is_Some (last l) -> is_Some (head l).
Proof. destruct l; [by intros [? ?] | by eexists]. Qed.

(** X7. Once the comments section is rendered, the command on a thread
    that has comments finds the thread's reply holder and replies to the
    thread's last comment with the draft that was there before the
    render. *)
Theorem command_after_render props holders section holders' ct final :
  renderReviewCommentThreads props holders = Normal (section, holders') ->
  thread_id (thread ct) ≠ "" ->
  List.find (fun each => String.eqb (thread_id (thread each)) (thread_id (thread ct)))
            (commentThreads props)
  = Some ct ->
  last (comments ct) = Some final ->
  submitCurrentComment props holders' (Some (thread_id (thread ct)))
  = Normal (Some (spec_reply (draft holders (thread_id (thread ct))) (thread ct) final)).
Proof.
  intros Hrender Hid Hfind Hfinal.
  apply renderReviewCommentThreads_Normal in Hrender as (-> & _ & _).
  destruct (holdersAfter_spec (commentThreads props) holders)
    as (_ & Hdraft & Hshown & _).
  destruct (Hshown ct) as [holder Hholder].
  { apply list_elem_of_filter. split.
    - apply last_head_is_Some. by eexists.
    - by apply (find_thread props (thread_id (thread ct))). }
  unfold submitCurrentComment.
  destruct (String.eqb_spec (thread_id (thread ct)) "") as [| _]; [done |].
  rewrite Hfind. unfold RefHolder.t in *. rewrite Hholder.
  cbn [member mbind completion_bind JS.bind]. rewrite Hfinal.
  by rewrite submitReply_Normal, Hdraft.
Qed.

Lemma command_after_render_witness :
  ∃ section holders',
    renderReviewCommentThreads props_threads drafts0 = Normal (section, holders')
    ∧ submitCurrentComment props_threads holders' (Some "thread2")
      = Normal (Some (spec_reply "" thread_resolved comment_resolved)).
Proof.
  destruct (renderReviewCommentThreads props_threads drafts0)
    as [[section holders'] |] eqn:Hrender; [| vm_compute in Hrender; discriminate].
  exists section, holders'. split; [reflexivity |].
  apply (command_after_render props_threads drafts0 section holders'
           {| thread := thread_resolved; comments := [comment_resolved] |}
           comment_resolved Hrender); [discriminate | reflexivity | reflexivity].
Defined.

(** X8. The command does nothing without a thread id or with an empty
    one.  For any other id it throws a [TypeError] exactly when no thread
    has that id, or the thread was never given a reply holder, or the first
    thread with that id has no comment; otherwise it makes the call. *)
Theorem command_edges (props : Props) (holders : ReplyHolders) :
  submitCurrentComment props holders None = Normal None
  ∧ submitCurrentComment props holders (Some "") = Normal None
  ∧ ∀ id, id ≠ "" ->
      let found := List.find (fun each => String.eqb (thread_id (thread each)) id)
                             (commentThreads props) in
      (submitCurrentComment props holders (Some id) = Throw TypeError
       ↔ found = None
         ∨ holders !! id = None
         ∨ ∃ ct, found = Some ct ∧ comments ct = [])
      ∧ (∀ ct final,
            found = Some ct -> is_Some (holders !! id) ->
            last (comments ct) = Some final ->
            submitCurrentComment props holders (Some id)
            = Normal (Some {| arg_body := draft holders id;
                              arg_threadID := thread_id (thread ct);
                              arg_replyToID := comment_id final;
                              arg_path := comment_path final;
                              arg_position := comment_position final;
                              arg_didSubmitComment := DidSubmitComment id;
                              arg_didFailComment := DidFailComment id (draft holders id) |})).
Proof.
  split; [reflexivity |]. split; [reflexivity |].
  intros id Hid found. unfold submitCurrentComment.
  destruct (String.eqb_spec id "") as [| _]; [done |]. fold found.
  destruct found as [ct |]; cbn [member mbind completion_bind JS.bind].
  - unfold RefHolder.t in *.
    destruct (holders !! id) as [holder |] eqn:Hholder.
    + unfold submitReply. cbn [member mbind completion_bind JS.bind].
      rewrite submitReply_draft.
      destruct (last (comments ct)) as [final |] eqn:Hfinal;
        cbn [member mbind completion_bind JS.bind].
      * split.
        -- split; [discriminate |].
           intros [? | [? | (ct' & [= <-] & Hnil)]]; try discriminate.
           by rewrite Hnil in Hfinal.
        -- intros ct' final' Hct _ Hlast. by simplify_eq.
      * split.
        -- split; [| done]. intros _. right. right. exists ct. split; [done |].
           by apply last_None.
        -- intros ct' final' [= <-] _ Hlast. congruence.
    + split.
      * split; [| done]. intros _. right. by left.
      * intros ct' final' _ [? ?]. discriminate.
  - split.
    + split; [| done]. intros _. by left.
    + intros ct' final' [=].
Qed.

(** ** The callbacks of a submission *)

(** X9. A callback of a submission creates and removes no reply holder,
    leaves the holders of the other threads alone and changes nothing when
    the thread's editor is not mounted; [didSubmitComment] empties the
    editor that is mounted, so that the draft is empty afterwards. *)
Theorem callbacks_touch_one_editor (holders : ReplyHolders) (ref body : string) :
  let submitted := (invoke (DidSubmitComment ref) holders).1 in
  let failed := (invoke (DidFailComment ref body) holders).1 in
  dom submitted = dom holders
  ∧ dom failed = dom holders
  ∧ (∀ other, other ≠ ref ->
              submitted !! other = holders !! other
              ∧ failed !! other = holders !! other)
  ∧ (draft submitted ref = "")
  ∧ (∀ editor, holders !! ref = Some (Some editor) ->
               submitted !! ref = Some (Some {| getText := "" |}))
  ∧ (holders !! ref = None ∨ holders !! ref = Some None ->
     submitted = holders ∧ failed = holders).
Proof.
  cbn [invoke fst]. split; [apply dom_alter_L |]. split; [apply dom_alter_L |].
  split; [| split; [| split]].
  - intros other Hother. by rewrite !lookup_alter_ne.
  - unfold draft. rewrite lookup_alter_eq. unfold RefHolder.t in *.
    by destruct (holders !! ref) as [[editor |] |].
  - intros editor Hholder. rewrite lookup_alter_eq. unfold RefHolder.t in *.
    by rewrite Hholder.
  - intros Hholder. split; apply map_eq; intros other;
      (destruct (decide (other = ref)) as [-> | Hother];
       [ rewrite lookup_alter_eq; unfold RefHolder.t in *;
         by destruct Hholder as [-> | ->]
       | by rewrite lookup_alter_ne ]).
Qed.

(** ** The threads on screen *)

Lemma section_elements props holders sec holders' :
  renderReviewCommentThreads props holders = Normal (Some sec, holders') ->
  Forall2 (fun el ct => ∃ hs hs',
             renderReviewCommentThread props hs ct = Normal (Some el, hs'))
          (React_children (cs_children sec)) (shownThreads (commentThreads props)).
Proof.
  intros H. apply renderReviewCommentThreads_Normal in H as (_ & _ & H).
  destruct H as (children & Hchildren & -> & _).
  by apply renderThreadList_Normal in Hchildren as [? _].
Qed.

Lemma element_of_thread props hs ct el hs' :
  renderReviewCommentThread props hs ct = Normal (Some el, hs') ->
  ∃ root translated,
    head (comments ct) = Some root
    ∧ getTranslatedPosition props root = Normal translated
    ∧ te_id el = "review-thread-" +:+ thread_id (thread ct)
    ∧ te_highlightClass el = isHighlighted props (thread ct)
    ∧ te_lineNr el = positionText translated
    ∧ te_jumpToFileLine el = lineNumber translated
    ∧ te_outdatedClass el = negb (truthy (lineNumber translated))
    ∧ te_jumpToFileDisabled el = isEnabled (checkoutOp props)
    ∧ te_tooltip el = isEnabled (checkoutOp props)
    ∧ te_openDiffLine el = comment_position root
    ∧ te_patchPreview el
      = (fun position => (position, contextLines props)) <$> comment_position root.
Proof.
  intros H. apply renderReviewCommentThread_Normal in H.
  destruct (head (comments ct)) as [root |]; [| by injection H].
  destruct H as (translated & author & body & el' & Htr & _ & _ & [= <- _] & H).
  exists root, translated. split; [done |]. split; [done |]. tauto.
Qed.

Lemma threads_split (cts : list CommentThread) :
  length cts
  = (length (shownThreads cts)
     + length (filter (fun ct => length (comments ct) = 0) cts))%nat.
Proof.
  induction cts as [| ct cts IH]; [reflexivity |].
  rewrite shownThreads_cons. destruct (comments ct) as [| c cs] eqn:Hcs; cbn [head length].
  - rewrite filter_cons_True by (by rewrite Hcs). cbn [length]. lia.
  - rewrite filter_cons_False by (by rewrite Hcs). cbn [length]. lia.
Qed.

(** X10. The threads on screen are those with at least one comment, in
    the order of the input, each under the id "review-thread-" followed by
    the thread's id; the total of the progress indicator counts the threads
    without comments as well, so it can exceed what is on screen. *)
Theorem progress_counts_threads_without_comments props holders sec holders' :
  renderReviewCommentThreads props holders = Normal (Some sec, holders') ->
  te_id <$> React_children (cs_children sec)
  = (fun ct => "review-thread-" +:+ thread_id (thread ct))
      <$> shownThreads (commentThreads props)
  ∧ cs_progressMax sec
    = Z.of_nat (length (React_children (cs_children sec)))
      + Z.of_nat (length (filter (fun ct => length (comments ct) = 0%nat)
                                 (commentThreads props))).
Proof.
  intros H. pose proof (section_elements _ _ _ _ H) as Hels.
  apply renderReviewCommentThreads_Normal in H as (_ & _ & children & _ & _ & ->).
  split.
  - induction Hels as [| el ct els cts (hs & hs' & Hel) _ IH]; [reflexivity |].
    rewrite !fmap_cons, IH. f_equal.
    apply element_of_thread in Hel as (root & translated & _ & _ & -> & _). done.
  - rewrite (Forall2_length _ _ _ Hels), (threads_split (commentThreads props)). lia.
Qed.

Lemma progress_counts_threads_without_comments_witness :
  ∃ sec holders',
    renderReviewCommentThreads props_threads ∅ = Normal (Some sec, holders')
    ∧ te_id <$> React_children (cs_children sec)
      = ["review-thread-abcd"; "review-thread-thread1"; "review-thread-thread2"].
Proof.
  destruct (renderReviewCommentThreads props_threads ∅)
    as [[[sec |] holders'] |] eqn:Hrender; try (vm_compute in Hrender; discriminate).
  exists sec, holders'. split; [reflexivity |].
  by destruct (progress_counts_threads_without_comments _ _ _ _ Hrender) as [-> _].
Defined.

Lemma isHighlighted_true props t :
  isHighlighted props t = true -> scrollToThreadID props = Str (thread_id t).
Proof.
  unfold isHighlighted. destruct (scrollToThreadID props); try discriminate.
  intros H. apply String.eqb_eq in H. by subst.
Qed.

(** X11. When the threads have distinct ids at most one thread on screen
    is highlighted, the one that [scrollToThreadID] names; none is when
    [scrollToThreadID] is not a string. *)
Theorem at_most_one_thread_highlighted props holders sec holders' :
  renderReviewCommentThreads props holders = Normal (Some sec, holders') ->
  NoDup ((fun ct => thread_id (thread ct)) <$> commentThreads props) ->
  (∀ i j el el',
      React_children (cs_children sec) !! i = Some el ->
      React_children (cs_children sec) !! j = Some el' ->
      te_highlightClass el = true -> te_highlightClass el' = true ->
      i = j)
  ∧ (∀ el, el ∈ React_children (cs_children sec) ->
           te_highlightClass el = true ->
           ∃ id, scrollToThreadID props = Str id
                 ∧ te_id el = "review-thread-" +:+ id)
  ∧ (∀ el, el ∈ React_children (cs_children sec) ->
           (∀ id, scrollToThreadID props ≠ Str id) ->
           te_highlightClass el = false).
Proof.
  intros H Hnodup. pose proof (section_elements _ _ _ _ H) as Hels.
  assert (NoDup ((fun ct => thread_id (thread ct))
                   <$> shownThreads (commentThreads props))) as Hshown.
  { eapply sublist_NoDup; [exact Hnodup |].
    apply fmap_sublist. unfold shownThreads. apply sublist_filter. }
  assert (∀ i el, React_children (cs_children sec) !! i = Some el ->
                  ∃ ct, shownThreads (commentThreads props) !! i = Some ct
                        ∧ te_id el = "review-thread-" +:+ thread_id (thread ct)
                        ∧ te_highlightClass el = isHighlighted props (thread ct))
    as Hlookup.
  { intros i el Hi.
    destruct (Forall2_lookup_l _ _ _ _ _ Hels Hi) as (ct & Hct & hs & hs' & Hel).
    apply element_of_thread in Hel as (root & translated & _ & _ & Hid & Hhl & _).
    by exists ct. }
  split; [| split].
  - intros i j el el' Hi Hj Hel Hel'.
    destruct (Hlookup i el Hi) as (ct & Hct & _ & Hhl).
    destruct (Hlookup j el' Hj) as (ct' & Hct' & _ & Hhl').
    rewrite Hhl in Hel. rewrite Hhl' in Hel'.
    apply isHighlighted_true in Hel, Hel'.
    eapply (NoDup_lookup _ i j (thread_id (thread ct)) Hshown).
    + by rewrite list_lookup_fmap, Hct.
    + rewrite list_lookup_fmap, Hct'. cbn. congruence.
  - intros el Hel Hhl. apply list_elem_of_lookup in Hel as [i Hi].
    destruct (Hlookup i el Hi) as (ct & _ & Hid & Hhl').
    rewrite Hhl' in Hhl. apply isHighlighted_true in Hhl. eauto.
  - intros el Hel Hnot. apply list_elem_of_lookup in Hel as [i Hi].
    destruct (Hlookup i el Hi) as (ct & _ & _ & ->).
    unfold isHighlighted. destruct (scrollToThreadID props) as [| | | | id]; try done.
    by destruct (Hnot id).
Qed.

Lemma at_most_one_thread_highlighted_witness :
  ∃ sec holders',
    renderReviewCommentThreads props_scrolled ∅ = Normal (Some sec, holders')
    ∧ te_highlightClass <$> React_children (cs_children sec) = [true; false; false]
    ∧ ∀ i j el el',
        React_children (cs_children sec) !! i = Some el ->
        React_children (cs_children sec) !! j = Some el' ->
        te_highlightClass el = true -> te_highlightClass el' = true ->
        i = j.
Proof.
  destruct (renderReviewCommentThreads props_scrolled ∅)
    as [[[sec |] holders'] |] eqn:Hrender; try (vm_compute in Hrender; discriminate).
  exists sec, holders'. split; [reflexivity |]. split.
  - vm_compute in Hrender. by injection Hrender as <- _.
  - apply (at_most_one_thread_highlighted _ _ _ _ Hrender).
    apply (bool_decide_unpack _). vm_compute. exact I.
Defined.

(** X12. The Jump To File button of every thread on screen is disabled,
    and explained by a tooltip, exactly when the checkout operation is
    enabled (the pull request is not checked out), whatever the position of
    the thread; its handler calls [openFile], with the path and the line of
    the button, exactly when the button is not disabled. *)
Theorem jump_to_file_follows_checkout props holders sec holders' :
  renderReviewCommentThreads props holders = Normal (Some sec, holders') ->
  Forall (fun el =>
            te_jumpToFileDisabled el = isEnabled (checkoutOp props)
            ∧ te_tooltip el = te_jumpToFileDisabled el
            ∧ ∀ path line,
                openFile props path line
                = if te_jumpToFileDisabled el then None
                  else Some (OpenFile path line))
         (React_children (cs_children sec)).
Proof.
  intros H. pose proof (section_elements _ _ _ _ H) as Hels.
  apply Forall_forall. intros el Hel.
  apply list_elem_of_lookup in Hel as [i Hi].
  destruct (Forall2_lookup_l _ _ _ _ _ Hels Hi) as (ct & _ & hs & hs' & Hrender).
  apply element_of_thread in Hrender
    as (root & translated & _ & _ & _ & _ & _ & _ & _ & Hdisabled & Htooltip & _).
  rewrite Hdisabled, Htooltip. split; [done |]. split; [done |].
  intros path line. unfold openFile. by destruct (isEnabled (checkoutOp props)).
Qed.

Lemma jump_to_file_follows_checkout_witness :
  ∃ sec holders',
    renderReviewCommentThreads props_threads ∅ = Normal (Some sec, holders')
    ∧ Forall (fun el => te_jumpToFileDisabled el = false
                        ∧ openFile props_threads "dir/file0" (Num 10)
                          = Some (OpenFile "dir/file0" (Num 10)))
             (React_children (cs_children sec)).
Proof.
  destruct (renderReviewCommentThreads props_threads ∅)
    as [[[sec |] holders'] |] eqn:Hrender; try (vm_compute in Hrender; discriminate).
  exists sec, holders'. split; [reflexivity |].
  eapply Forall_impl; [exact (jump_to_file_follows_checkout _ _ _ _ Hrender) |].
  intros el (Hdisabled & _ & Hopen). by split.
Defined.

(** X13. [openDiff] parses the line of the button as a decimal number:
    for the Open Diff button of a thread on screen this is the position of
    the thread's root comment again, and [NaN] when that position is
    null. *)
Theorem open_diff_reads_position_back props holders sec holders' :
  renderReviewCommentThreads props holders = Normal (Some sec, holders') ->
  Forall2 (fun el ct =>
             ∃ root,
               head (comments ct) = Some root
               ∧ ∀ path,
                   openDiff path (dataset (openDiffLine el))
                   = OpenDiff path match comment_position root with
                                   | Some position => Num position
                                   | None => NaN
                                   end)
          (React_children (cs_children sec)) (shownThreads (commentThreads props)).
Proof.
  intros H. pose proof (section_elements _ _ _ _ H) as Hels.
  eapply Forall2_impl; [exact Hels |].
  intros el ct (hs & hs' & Hrender). cbn beta.
  apply element_of_thread in Hrender
    as (root & translated & Hroot & _ & _ & _ & _ & _ & _ & _ & _ & Hline & _).
  exists root. split; [done |]. intros path.
  unfold openDiff, openDiffLine. rewrite Hline.
  destruct (comment_position root) as [position |]; [| reflexivity].
  cbn [dataset ToString]. by rewrite parseInt_Number_toString.
Qed.

Lemma open_diff_reads_position_back_witness :
  ∃ sec holders',
    renderReviewCommentThreads props_threads ∅ = Normal (Some sec, holders')
    ∧ Forall2 (fun el ct =>
                 ∃ root,
                   head (comments ct) = Some root
                   ∧ ∀ path,
                       openDiff path (dataset (openDiffLine el))
                       = OpenDiff path match comment_position root with
                                       | Some position => Num position
                                       | None => NaN
                                       end)
              (React_children (cs_children sec)) (shownThreads commentThreads0).
Proof.
  destruct (renderReviewCommentThreads props_threads ∅)
    as [[[sec |] holders'] |] eqn:Hrender; try (vm_compute in Hrender; discriminate).
  exists sec, holders'. split; [reflexivity |].
  exact (open_diff_reads_position_back _ _ _ _ Hrender).
Defined.

Lemma translator_lineNumber props c r :
  getTranslatedPosition props c = Normal r ->
  lineNumber r = Null ∨ lineNumber r = Undefined ∨ ∃ n, lineNumber r = Num n.
Proof.
  unfold getTranslatedPosition.
  destruct (commentTranslations props) as [translations |]; [| intros [= <-]; by left].
  destruct (comment_position c) as [position |]; [| intros [= <-]; by left].
  intros H. apply bind_Normal in H as (tff & _ & H). rewrite Map_get_parseInt in H.
  apply bind_Normal in H as (line & Hline & [= <-]). cbn [lineNumber].
  assert (∀ o, of_lookup o = Null ∨ of_lookup o = Undefined ∨ ∃ n, of_lookup o = Num n)
    as Hlookup by (intros [n |]; cbn; eauto).
  destruct (fileTranslations tff) as [ft |];
    [destruct (isCheckedOutPullRequest props) |]; try (injection Hline as <-; apply Hlookup).
  unfold secondStage in Hline. apply bind_Normal in Hline as (entry & _ & [= <-]). eauto.
Qed.

(** X14. The navigation buttons of a thread on screen carry the outdated
    class exactly when the translated line number is null, undefined or
    the number 0.  That is the case of every thread while the translation
    tables are not loaded (with an empty line text), and of a thread whose
    root comment has a null position once they are (with the text
    "outdated", and without patch preview); a patch preview is shown
    exactly for a non-null position. *)
Theorem outdated_threads props holders sec holders' :
  renderReviewCommentThreads props holders = Normal (Some sec, holders') ->
  Forall2 (fun el ct =>
             ∃ root,
               head (comments ct) = Some root
               ∧ (te_outdatedClass el = true
                  ↔ te_jumpToFileLine el = Null ∨ te_jumpToFileLine el = Undefined
                    ∨ te_jumpToFileLine el = Num 0)
               ∧ (commentTranslations props = None ->
                  te_lineNr el = Str "" ∧ te_outdatedClass el = true)
               ∧ (commentTranslations props ≠ None -> comment_position root = None ->
                  te_lineNr el = Str "outdated" ∧ te_outdatedClass el = true)
               ∧ te_patchPreview el
                 = (fun position => (position, contextLines props))
                     <$> comment_position root)
          (React_children (cs_children sec)) (shownThreads (commentThreads props)).
Proof.
  intros H. pose proof (section_elements _ _ _ _ H) as Hels.
  eapply Forall2_impl; [exact Hels |].
  intros el ct (hs & hs' & Hrender). cbn beta.
  apply element_of_thread in Hrender
    as (root & translated & Hroot & Htr & _ & _ & Htext & Hline & Hclass & _ & _ & _ & Hpatch).
  exists root. split; [done |]. rewrite Hclass, Hline, Htext.
  split; [| split; [| split; [| done]]].
  - destruct (translator_lineNumber _ _ _ Htr) as [-> | [-> | [n ->]]]; cbn.
    + split; [by left | done].
    + split; [right; by left | done].
    + destruct (Z.eqb_spec n 0) as [-> | Hn]; cbn.
      * split; [right; by right | done].
      * split; [done | intros [? | [? | [=]]]; done].
  - intros Hnone. unfold getTranslatedPosition in Htr. rewrite Hnone in Htr.
    by injection Htr as <-.
  - intros Hsome Hpos. unfold getTranslatedPosition in Htr.
    destruct (commentTranslations props); [| done]. rewrite Hpos in Htr.
    by injection Htr as <-.
Qed.

Lemma outdated_threads_witness :
  ∃ sec holders',
    renderReviewCommentThreads (buildApp commentThreads0 None) ∅
    = Normal (Some sec, holders')
    ∧ Forall (fun el => te_lineNr el = Str "" ∧ te_outdatedClass el = true)
             (React_children (cs_children sec)).
Proof.
  destruct (renderReviewCommentThreads (buildApp commentThreads0 None) ∅)
    as [[[sec |] holders'] |] eqn:Hrender; try (vm_compute in Hrender; discriminate).
  exists sec, holders'. split; [reflexivity |].
  pose proof (outdated_threads _ _ _ _ Hrender) as Hthreads.
  apply Forall_forall. intros el Hel. apply list_elem_of_lookup in Hel as [i Hi].
  destruct (Forall2_lookup_l _ _ _ _ _ Hthreads Hi) as (ct & _ & root & _ & _ & Hnone & _).
  by apply Hnone.
Defined.

(** ** The summaries section and the empty state *)

(** X15. The empty state is shown for an empty list of summaries only: a
    list that holds nothing but pending reviews and empty "commented" ones
    still gets the Summaries section, with nothing in it. *)
Theorem summaries_empty_state (props : Props) :
  (summaries props = [] ↔ ∃ url, renderReviewSummaries props = EmptyState url)
  ∧ (summaries props ≠ [] ->
     ∃ children,
       renderReviewSummaries props = SummariesSection (summarySectionOpen props) children
       ∧ length children = length (summaries props)
       ∧ (Forall spec_suppressed (summaries props) ↔ React_children children = [])).
Proof.
  unfold renderReviewSummaries.
  destruct (Nat.eqb_spec (length (summaries props)) 0) as [Hlen | Hlen].
  - apply nil_length_inv in Hlen. split; [| done].
    split; [by eexists | done].
  - assert (summaries props ≠ []) as Hcons
      by (intros Hnil; by rewrite Hnil in Hlen).
    split; [split; [done | by intros [url Hurl]] |].
    intros _. eexists. split; [reflexivity |]. split; [apply length_fmap |].
    clear Hlen Hcons. unfold React_children.
    induction (summaries props) as [| r l IH]; [done |].
    rewrite fmap_cons, omap_step. cbn [id].
    destruct (renderReviewSummary r) as [shown |] eqn:Hr.
    + split; [| done]. intros Hall. apply Forall_cons in Hall as [Hsup _].
      apply renderReviewSummary_None in Hsup. congruence.
    + rewrite <- IH. apply renderReviewSummary_None in Hr. split.
      * by intros [_ ?]%Forall_cons.
      * intros Hall. by constructor.
Qed.

(** ** More of the refresh button *)

(** X17. Once the callback of the refresh in flight has run the view is
    idle again and [subs] is empty; the next click calls [refetch] once
    more, and the subscription that call returns is then the one that
    [subs] holds and that [componentWillUnmount] would dispose of. *)
Theorem refresh_resumes (w : World) (sub : nat) :
  reachable w ->
  sub ∈ inFlight w ->
  let idle := refetchCallback sub w in
  let again := refresh idle in
  isRefreshing idle = false
  ∧ CompositeDisposable.disposables (subs idle) = ∅
  ∧ isRefreshing again = true
  ∧ ∃ new,
      refetchCalls again = refetchCalls w ++ [new]
      ∧ CompositeDisposable.disposables (subs again) = {[ new ]}
      ∧ disposeCalls (componentWillUnmount again) = {[ new ]}.
Proof.
  intros Hreach Hsub idle again.
  destruct (reachable_invariant w Hreach)
    as [Hmounted Hsubs Hbusy Hidle _ _ Hdisposed].
  assert (inFlight w = {[sub]}) as Hone.
  { destruct (isRefreshing w).
    - rewrite Hbusy in * by done. set_solver.
    - rewrite Hidle in Hsub by done. set_solver. }
  assert (idle = {| isRefreshing := false;
                    subs := {| CompositeDisposable.disposed := false;
                               CompositeDisposable.disposables := ∅ |};
                    refetchCalls := refetchCalls w;
                    doneCalls := {[sub]} ∪ doneCalls w;
                    disposeCalls := disposeCalls w |}) as Hidle'.
  { subst idle. unfold refetchCallback, CompositeDisposable.remove.
    rewrite Hmounted, Hsubs, Hone. f_equal. f_equal. set_solver. }
  subst again. rewrite Hidle'.
  cbn [refresh isRefreshing subs refetchCalls CompositeDisposable.disposables].
  split; [reflexivity |]. split; [reflexivity |]. split; [reflexivity |].
  exists (length (refetchCalls w)). split; [reflexivity |].
  unfold componentWillUnmount, CompositeDisposable.dispose, CompositeDisposable.add.
  cbn. rewrite Hdisposed. split; set_solver.
Qed.

Lemma refresh_resumes_witness :
  isRefreshing (refresh (refetchCallback 0%nat (refresh constructor))) = true
  ∧ ∃ new,
      refetchCalls (refresh (refetchCallback 0%nat (refresh constructor)))
      = refetchCalls (refresh constructor) ++ [new]
      ∧ disposeCalls (componentWillUnmount
                        (refresh (refetchCallback 0%nat (refresh constructor))))
        = {[ new ]}.
Proof.
  destruct (refresh_resumes (refresh constructor) 0%nat)
    as (_ & _ & Hbusy & new & Hcalls & _ & Hgone).
  - exact (reachable_step _ ClickRefresh _ reachable_constructor (step_click constructor)).
  - apply (bool_decide_unpack _). vm_compute. exact I.
  - split; [exact Hbusy |]. exists new. split; [exact Hcalls | exact Hgone].
Defined.

(** X18. [componentWillUnmount] disposes of no subscription that has
    completed, and what it leaves is final: a second call, or the callback
    of the refresh that was in flight arriving late, disposes of nothing
    more and leaves [subs] disposed. *)
Theorem unmount_is_final (w : World) :
  reachable w ->
  let gone := componentWillUnmount w in
  disposeCalls gone ∩ doneCalls w = ∅
  ∧ CompositeDisposable.disposed (subs gone) = true
  ∧ componentWillUnmount gone = gone
  ∧ (∀ sub, subs (refetchCallback sub gone) = subs gone
            ∧ disposeCalls (refetchCallback sub gone) = disposeCalls gone
            ∧ componentWillUnmount (refetchCallback sub gone) = refetchCallback sub gone).
Proof.
  intros Hreach gone.
  destruct (reachable_invariant w Hreach) as [Hmounted Hsubs _ _ _ _ Hdisposed].
  assert (gone = {| isRefreshing := isRefreshing w;
                    subs := {| CompositeDisposable.disposed := true;
                               CompositeDisposable.disposables := ∅ |};
                    refetchCalls := refetchCalls w; doneCalls := doneCalls w;
                    disposeCalls := disposeCalls w ∪ inFlight w |}) as ->.
  { subst gone. unfold componentWillUnmount, CompositeDisposable.dispose.
    rewrite Hmounted. cbn [fst snd]. by rewrite Hsubs. }
  cbn [disposeCalls subs CompositeDisposable.disposed].
  split; [rewrite Hdisposed; unfold inFlight; set_solver |]. split; [done |].
  split.
  - unfold componentWillUnmount, CompositeDisposable.dispose. cbn. f_equal. set_solver.
  - intros sub. split; [reflexivity |]. split; [reflexivity |].
    unfold componentWillUnmount, CompositeDisposable.dispose, refetchCallback. cbn.
    f_equal. set_solver.
Qed.

Lemma unmount_is_final_witness :
  componentWillUnmount (componentWillUnmount (refresh constructor))
  = componentWillUnmount (refresh constructor).
Proof.
  apply (unmount_is_final (refresh constructor)).
  exact (reachable_step _ ClickRefresh _ reachable_constructor (step_click constructor)).
Defined.

(** ** The body of a thread *)

Lemma element_body props hs ct el hs' :
  renderReviewCommentThread props hs ct = Normal (Some el, hs') ->
  renderThread props hs (thread ct) (comments ct) = Normal (te_thread el, hs').
Proof.
  intros H. apply renderReviewCommentThread_Normal in H.
  destruct (head (comments ct)) as [root |]; [| by injection H].
  destruct H as (translated & author & body & el' & _ & _ & Hbody & Heq & H).
  injection Heq as Hel Hhs. subst el hs'.
  replace (te_thread el') with body; [exact Hbody | symmetry; tauto].
Qed.

Lemma mapM_renderComment_Forall2 (cs : list Comment) (els : list CommentElement) :
  mapM renderComment cs = Normal els ->
  Forall2 (fun el c => renderComment c = Normal el) els cs.
Proof.
  revert els. induction cs as [| c cs IH]; intros els H.
  - injection H as <-. constructor.
  - cbn [mapM] in H.
    apply bind_Normal in H as (el & Hel & H).
    apply bind_Normal in H as (rest & Hrest & [= <-]).
    constructor; [done | by apply IH].
Qed.

(** X19. The body of a thread shows its comments one for one and in
    order, each under the comment's id: a minimized comment as the
    placeholder of a hidden comment, so that its text does not reach the
    screen, any other one with its text and its author's login.  The button
    beside the reply box unresolves a resolved thread and resolves any
    other, and only a resolved thread names who resolved it. *)
Theorem thread_body_shows props holders t cs body holders' :
  renderThread props holders t cs = Normal (body, holders') ->
  Forall2 (fun el c =>
             match el with
             | HiddenCommentElement key =>
                 comment_isMinimized c = true ∧ key = comment_id c
             | VisibleCommentElement shown =>
                 comment_isMinimized c = false
                 ∧ vc_key shown = comment_id c
                 ∧ vc_html shown = comment_bodyHTML c
                 ∧ comment_author c
                   = Some {| login := vc_username shown; avatarUrl := vc_avatarSrc shown |}
             end)
          (tb_comments body) cs
  ∧ tb_replyThreadId body = thread_id t
  ∧ tb_resolveButton body
    = (if thread_isResolved t then UnresolveConversation t else ResolveConversation t)
  ∧ (if thread_isResolved t
     then ∃ by_, thread_resolvedBy t = Some by_
                 ∧ tb_resolvedText body
                   = Some ("This conversation was marked as resolved by @" +:+ login by_)
     else tb_resolvedText body = None).
Proof.
  intros H. pose proof (renderThread_Normal _ _ _ _ _ _ H) as (_ & _ & _ & _ & Hels & _).
  split.
  - eapply Forall2_impl; [exact (mapM_renderComment_Forall2 _ _ Hels) |].
    intros el c. unfold renderComment.
    destruct (comment_isMinimized c); [by intros [= <-] |].
    destruct (comment_author c) as [[name avatar] |]; [| discriminate].
    by intros [= <-].
  - unfold renderThread in H.
    apply bind_Normal in H as (els & _ & H).
    apply bind_Normal in H as (text & Htext & [= <- _]).
    split; [reflexivity |]. split; [reflexivity |]. cbn [tb_resolvedText].
    destruct (thread_isResolved t); [| by injection Htext as <-].
    destruct (thread_resolvedBy t) as [by_ |]; [| discriminate].
    injection Htext as <-. by exists by_.
Qed.

Lemma thread_body_shows_witness :
  ∃ body holders',
    renderThread props_threads ∅ thread_abcd [comment0; comment1] = Normal (body, holders')
    ∧ tb_comments body
      = [ VisibleCommentElement
            {| vc_key := "0"; vc_pendingClass := false; vc_avatarSrc := "user0.jpg";
               vc_avatarAlt := "user0"; vc_usernameHref := "https://github.com/user0";
               vc_username := "user0"; vc_timeHref := ""; vc_time := "";
               vc_pendingBadge := false; vc_html := "i have opinions.";
               vc_reactable := comment0 |};
          HiddenCommentElement "1" ]
    ∧ tb_resolveButton body = ResolveConversation thread_abcd.
Proof.
  destruct (renderThread props_threads ∅ thread_abcd [comment0; comment1])
    as [[body holders'] |] eqn:Hrender; [| vm_compute in Hrender; discriminate].
  exists body, holders'. split; [reflexivity |].
  destruct (thread_body_shows _ _ _ _ _ _ Hrender) as (_ & _ & Hbutton & _).
  split; [| exact Hbutton].
  vm_compute in Hrender. by injection Hrender as <- _.
Defined.

(** X20. The Comment button of every thread on screen replies to the last
    comment of that thread, with the draft of that thread at the time of
    the click; it does not throw. *)
Theorem every_comment_button_replies props holders sec holders' :
  renderReviewCommentThreads props holders = Normal (Some sec, holders') ->
  Forall2 (fun el ct =>
             ∃ final,
               last (comments ct) = Some final
               ∧ ∀ drafts,
                   clickReplyButton drafts (te_thread el)
                   = Normal (spec_reply (draft drafts (thread_id (thread ct)))
                                        (thread ct) final))
          (React_children (cs_children sec)) (shownThreads (commentThreads props)).
Proof.
  intros H. pose proof (section_elements _ _ _ _ H) as Hels.
  eapply Forall2_impl; [exact Hels |].
  intros el ct (hs & hs' & Hrender). cbn beta.
  pose proof (element_body _ _ _ _ _ Hrender) as Hbody.
  apply element_of_thread in Hrender as (root & _ & Hroot & _).
  apply renderThread_Normal in Hbody as (_ & _ & _ & Hclick & _).
  destruct (last_is_Some (comments ct)) as [final Hfinal].
  { intros Hnil. by rewrite Hnil in Hroot. }
  exists final. split; [done |]. intros drafts.
  unfold clickReplyButton. rewrite Hclick. cbn [click_replyHolder click_thread click_lastComment].
  rewrite Hfinal. apply submitReply_Normal.
Qed.

Lemma every_comment_button_replies_witness :
  ∃ sec holders',
    renderReviewCommentThreads props_threads ∅ = Normal (Some sec, holders')
    ∧ (fun el => clickReplyButton drafts0 (te_thread el))
        <$> React_children (cs_children sec)
      = [ Normal (spec_reply "content" thread_abcd comment1);
          Normal (spec_reply "" thread_file1 comment3);
          Normal (spec_reply "" thread_resolved comment_resolved) ].
Proof.
  destruct (renderReviewCommentThreads props_threads ∅)
    as [[[sec |] holders'] |] eqn:Hrender; try (vm_compute in Hrender; discriminate).
  exists sec, holders'. split; [reflexivity |].
  pose proof (every_comment_button_replies _ _ _ _ Hrender) as Hclicks.
  assert (shownThreads (commentThreads props_threads) = commentThreads0) as Hshown
    by reflexivity.
  rewrite Hshown in Hclicks. unfold commentThreads0 in Hclicks.
  repeat match goal with
         | H : Forall2 _ _ (_ :: _) |- _ =>
             apply Forall2_cons_inv_r in H as (? & ? & (? & [= <-] & ?) & ? & ->)
         | H : Forall2 _ _ [] |- _ => apply Forall2_nil_inv_r in H as ->
         end.
  rewrite !fmap_cons. by repeat f_equal.
Defined.
